(** * Sistema de Gestao de Eventos Culturais: inscricoes, vagas, lista de espera e check-in

    Shallow embedding of [codigo_sqlite_colab.py].  The SQLite store is a
    record of three tables, each a list of rows in insertion order; every
    function of the source that opens a connection, runs statements and
    commits becomes a pure function from the store (and from what the
    source draws from outside: the random confirmation code, the clock)
    to the final store, the returned value and the line printed.

    A connection closed without [commit] discards its statements, so the
    paths of the source that return before [conn.commit()] yield the store
    they started from.

    Integers are SQLite INTEGER values and are modelled by [Z]; the
    foreign keys of the schema are declared but not enforced (the source
    never turns [PRAGMA foreign_keys] on), so the [usuarios] table plays no
    part in the operations below.  The columns of [eventos] that the
    enrollment functions neither read nor write (titulo, local, ...) are
    left out. *)

From Stdlib Require Import ZArith String List Bool Lia.
Import ListNotations.
Open Scope Z_scope.

(** ** The tables *)

(** [status TEXT CHECK(status IN ('confirmada', 'cancelada', 'presente'))] *)
Inductive status_inscricao : Type :=
| Confirmada
| Cancelada
| Presente.

Definition status_eqb (a b : status_inscricao) : bool :=
  match a, b with
  | Confirmada, Confirmada | Cancelada, Cancelada | Presente, Presente => true
  | _, _ => false
  end.

(** A row of [eventos]. *)
Record evento : Type := mk_evento {
  ev_id : Z;
  ev_capacidade_maxima : Z;
  ev_vagas_disponiveis : Z
}.

(** A row of [inscricoes]. *)
Record inscricao : Type := mk_inscricao {
  in_id : Z;
  in_participante_id : Z;
  in_evento_id : Z;
  in_data_inscricao : string;
  in_status : status_inscricao;
  in_codigo_confirmacao : string;
  in_presente : bool;
  in_data_checkin : option string
}.

(** A row of [lista_espera]. *)
Record espera : Type := mk_espera {
  le_id : Z;
  le_participante_id : Z;
  le_evento_id : Z;
  le_posicao : Z;
  le_data_entrada : string;
  le_notificado : bool
}.

Record banco : Type := mk_banco {
  eventos : list evento;
  inscricoes : list inscricao;
  lista_espera : list espera
}.

(** The store right after [criar_tabelas]. *)
Definition banco_vazio : banco :=
  {| eventos := []; inscricoes := []; lista_espera := [] |}.

(** ** What a call gives back *)

(** The lines the functions print, one constructor per [print] of a path. *)
Inductive mensagem : Type :=
| MsgEventoCriado (evento_id : Z)
| MsgErroAoCriarEvento
| MsgEventoNaoEncontrado
| MsgSemVagas
| MsgInscricaoRealizada (codigo : string)
| MsgJaInscrito
| MsgAdicionadoListaEspera (posicao : Z)
| MsgJaNaListaEspera
| MsgInscricaoCancelada
| MsgInscricaoNaoEncontradaOuJaCancelada
| MsgCheckinRealizado
| MsgCodigoInvalidoOuCheckinJaRealizado.

(** [inscrever_participante] returns the new row id, [None] or the string
    ['lista_espera']. *)
Inductive retorno_inscricao : Type :=
| RetId (inscricao_id : Z)
| RetNone
| RetListaEspera.

Record saida (A : Type) : Type := mk_saida {
  banco_final : banco;
  retorno : A;
  impresso : mensagem
}.
Arguments mk_saida {A} _ _ _.
Arguments banco_final {A} _.
Arguments retorno {A} _.
Arguments impresso {A} _.

(** ** SQL statements *)

(** [INTEGER PRIMARY KEY AUTOINCREMENT]: one more than the largest id. *)
Definition proximo_id (ids : list Z) : Z :=
  fold_right Z.max 0 ids + 1.

(** [SELECT ... FROM eventos WHERE id = ?] then [fetchone()]: the first row
    with the id, if any. *)
Definition buscar_evento (evs : list evento) (evento_id : Z) : option evento :=
  find (fun ev => ev_id ev =? evento_id) evs.

(** [SELECT vagas_disponiveis FROM eventos WHERE id = ?] then [fetchone()]. *)
Definition selecionar_vagas (evs : list evento) (evento_id : Z) : option Z :=
  option_map ev_vagas_disponiveis (buscar_evento evs evento_id).

(** [UPDATE eventos SET vagas_disponiveis = vagas_disponiveis + delta WHERE id = ?] *)
Definition atualizar_vagas (evs : list evento) (evento_id delta : Z) : list evento :=
  map (fun ev =>
         if ev_id ev =? evento_id
         then {| ev_id := ev_id ev;
                 ev_capacidade_maxima := ev_capacidade_maxima ev;
                 ev_vagas_disponiveis := ev_vagas_disponiveis ev + delta |}
         else ev) evs.

(** The two UNIQUE constraints of [inscricoes]. *)
Definition mesmo_par (participante_id evento_id : Z) (i : inscricao) : bool :=
  (in_participante_id i =? participante_id) && (in_evento_id i =? evento_id).

Definition mesmo_codigo (codigo : string) (i : inscricao) : bool :=
  String.eqb (in_codigo_confirmacao i) codigo.

(** [INSERT INTO inscricoes (participante_id, evento_id, codigo_confirmacao)]:
    [None] stands for [sqlite3.IntegrityError]; otherwise the table with the
    new row (column defaults filled in) and [cursor.lastrowid]. *)
Definition inserir_inscricao (ins : list inscricao) (participante_id evento_id : Z)
    (codigo agora : string) : option (list inscricao * Z) :=
  if existsb (mesmo_par participante_id evento_id) ins
     || existsb (mesmo_codigo codigo) ins
  then None
  else
    let novo_id := proximo_id (map in_id ins) in
    Some (ins ++ [ {| in_id := novo_id;
                      in_participante_id := participante_id;
                      in_evento_id := evento_id;
                      in_data_inscricao := agora;
                      in_status := Confirmada;
                      in_codigo_confirmacao := codigo;
                      in_presente := false;
                      in_data_checkin := None |} ],
          novo_id).

Definition com_status (s : status_inscricao) (i : inscricao) : inscricao :=
  {| in_id := in_id i;
     in_participante_id := in_participante_id i;
     in_evento_id := in_evento_id i;
     in_data_inscricao := in_data_inscricao i;
     in_status := s;
     in_codigo_confirmacao := in_codigo_confirmacao i;
     in_presente := in_presente i;
     in_data_checkin := in_data_checkin i |}.

(** [WHERE participante_id = ? AND evento_id = ? AND status = 'confirmada'] *)
Definition alvo_cancelamento (participante_id evento_id : Z) (i : inscricao) : bool :=
  mesmo_par participante_id evento_id i && status_eqb (in_status i) Confirmada.

(** [UPDATE inscricoes SET status = 'cancelada' WHERE ...]: the table and
    [cursor.rowcount]. *)
Definition atualizar_cancelada (ins : list inscricao) (participante_id evento_id : Z)
    : list inscricao * nat :=
  (map (fun i => if alvo_cancelamento participante_id evento_id i
                 then com_status Cancelada i else i) ins,
   length (filter (alvo_cancelamento participante_id evento_id) ins)).

(** [WHERE codigo_confirmacao = ? AND status = 'confirmada'] *)
Definition alvo_checkin (codigo : string) (i : inscricao) : bool :=
  mesmo_codigo codigo i && status_eqb (in_status i) Confirmada.

Definition marcar_presente (agora : string) (i : inscricao) : inscricao :=
  {| in_id := in_id i;
     in_participante_id := in_participante_id i;
     in_evento_id := in_evento_id i;
     in_data_inscricao := in_data_inscricao i;
     in_status := Presente;
     in_codigo_confirmacao := in_codigo_confirmacao i;
     in_presente := true;
     in_data_checkin := Some agora |}.

(** [UPDATE inscricoes SET presente = 1, status = 'presente',
    data_checkin = CURRENT_TIMESTAMP WHERE ...]: the table and [cursor.rowcount]. *)
Definition atualizar_presente (ins : list inscricao) (codigo agora : string)
    : list inscricao * nat :=
  (map (fun i => if alvo_checkin codigo i then marcar_presente agora i else i) ins,
   length (filter (alvo_checkin codigo) ins)).

(** [SELECT MAX(posicao) FROM lista_espera WHERE evento_id = ?]: NULL on no row. *)
Fixpoint max_posicao (les : list espera) (evento_id : Z) : option Z :=
  match les with
  | [] => None
  | l :: resto =>
      if le_evento_id l =? evento_id
      then match max_posicao resto evento_id with
           | None => Some (le_posicao l)
           | Some m => Some (Z.max (le_posicao l) m)
           end
      else max_posicao resto evento_id
  end.

(** [SELECT COALESCE(MAX(posicao), 0) + 1 FROM lista_espera WHERE evento_id = ?] *)
Definition proxima_posicao (les : list espera) (evento_id : Z) : Z :=
  match max_posicao les evento_id with
  | None => 0
  | Some m => m
  end + 1.

Definition mesmo_par_espera (participante_id evento_id : Z) (l : espera) : bool :=
  (le_participante_id l =? participante_id) && (le_evento_id l =? evento_id).

(** [INSERT INTO lista_espera (participante_id, evento_id, posicao)] under
    [UNIQUE(participante_id, evento_id)]. *)
Definition inserir_espera (les : list espera) (participante_id evento_id posicao : Z)
    (agora : string) : option (list espera) :=
  if existsb (mesmo_par_espera participante_id evento_id) les
  then None
  else Some (les ++ [ {| le_id := proximo_id (map le_id les);
                         le_participante_id := participante_id;
                         le_evento_id := evento_id;
                         le_posicao := posicao;
                         le_data_entrada := agora;
                         le_notificado := false |} ]).

(** ** The functions of the source *)

(** [gerar_codigo_confirmacao] draws ten characters at random from
    [string.ascii_uppercase + string.digits]: the draw is an argument of
    [inscrever_participante] below, and this is the set it is drawn from. *)
Definition caractere_de_codigo (c : Ascii.ascii) : bool :=
  let n := Ascii.nat_of_ascii c in
  ((65 <=? n) && (n <=? 90) || (48 <=? n) && (n <=? 57))%nat.

Definition codigo_gerado (codigo : string) : bool :=
  (String.length codigo =? 10)%nat
  && forallb caractere_de_codigo (list_ascii_of_string codigo).

(** The integers SQLite stores are 64-bit signed; binding any other
    Python int makes [cursor.execute] raise [OverflowError]. *)
Definition inteiro_sqlite (n : Z) : bool :=
  (- 2 ^ 63 <=? n) && (n <? 2 ^ 63).

(** [criar_evento]: the new event starts with every slot open.  Of its
    arguments the capacity is kept, the others being columns the
    enrollment functions never read.  When the INSERT raises, here on a
    capacity SQLite cannot store, [except Exception] prints the error and
    returns [None], and nothing is stored. *)
Definition criar_evento (db : banco) (capacidade_maxima : Z) : saida (option Z) :=
  if inteiro_sqlite capacidade_maxima
  then
    let evento_id := proximo_id (map ev_id (eventos db)) in
    mk_saida
      {| eventos := eventos db ++ [ {| ev_id := evento_id;
                                       ev_capacidade_maxima := capacidade_maxima;
                                       ev_vagas_disponiveis := capacidade_maxima |} ];
         inscricoes := inscricoes db;
         lista_espera := lista_espera db |}
      (Some evento_id)
      (MsgEventoCriado evento_id)
  else mk_saida db None MsgErroAoCriarEvento.

Definition inscrever_participante (db : banco) (codigo agora : string)
    (participante_id evento_id : Z) : saida retorno_inscricao :=
  match selecionar_vagas (eventos db) evento_id with
  | None => mk_saida db RetNone MsgEventoNaoEncontrado
  | Some vagas_disponiveis =>
      if vagas_disponiveis <=? 0
      then mk_saida db RetListaEspera MsgSemVagas
      else
        match inserir_inscricao (inscricoes db) participante_id evento_id codigo agora with
        | Some (novas, inscricao_id) =>
            mk_saida
              {| eventos := atualizar_vagas (eventos db) evento_id (-1);
                 inscricoes := novas;
                 lista_espera := lista_espera db |}
              (RetId inscricao_id)
              (MsgInscricaoRealizada codigo)
        | None => mk_saida db RetNone MsgJaInscrito
        end
  end.

Definition adicionar_lista_espera (db : banco) (agora : string)
    (participante_id evento_id : Z) : saida bool :=
  let posicao := proxima_posicao (lista_espera db) evento_id in
  match inserir_espera (lista_espera db) participante_id evento_id posicao agora with
  | Some novas =>
      mk_saida
        {| eventos := eventos db; inscricoes := inscricoes db; lista_espera := novas |}
        true
        (MsgAdicionadoListaEspera posicao)
  | None => mk_saida db false MsgJaNaListaEspera
  end.

Definition cancelar_inscricao (db : banco) (participante_id evento_id : Z) : saida bool :=
  let '(novas, rowcount) := atualizar_cancelada (inscricoes db) participante_id evento_id in
  if (0 <? rowcount)%nat
  then
    mk_saida
      {| eventos := atualizar_vagas (eventos db) evento_id 1;
         inscricoes := novas;
         lista_espera := lista_espera db |}
      true
      MsgInscricaoCancelada
  else mk_saida db false MsgInscricaoNaoEncontradaOuJaCancelada.

Definition realizar_checkin (db : banco) (codigo_confirmacao agora : string) : saida bool :=
  let '(novas, rowcount) := atualizar_presente (inscricoes db) codigo_confirmacao agora in
  if (0 <? rowcount)%nat
  then
    mk_saida
      {| eventos := eventos db; inscricoes := novas; lista_espera := lista_espera db |}
      true
      MsgCheckinRealizado
  else mk_saida db false MsgCodigoInvalidoOuCheckinJaRealizado.

(** ** Sequences of calls *)

Inductive operacao : Type :=
| OpCriarEvento (capacidade_maxima : Z)
| OpInscrever (codigo agora : string) (participante_id evento_id : Z)
| OpListaEspera (agora : string) (participante_id evento_id : Z)
| OpCancelar (participante_id evento_id : Z)
| OpCheckin (codigo agora : string).

Definition executar (db : banco) (o : operacao) : banco :=
  match o with
  | OpCriarEvento c => banco_final (criar_evento db c)
  | OpInscrever codigo agora p e => banco_final (inscrever_participante db codigo agora p e)
  | OpListaEspera agora p e => banco_final (adicionar_lista_espera db agora p e)
  | OpCancelar p e => banco_final (cancelar_inscricao db p e)
  | OpCheckin codigo agora => banco_final (realizar_checkin db codigo agora)
  end.

Definition executar_todas (db : banco) (ops : list operacao) : banco :=
  fold_left executar ops db.

(** The stores the program can be in: [criar_tabelas], then any calls. *)
Definition alcancavel (db : banco) : Prop :=
  exists ops, db = executar_todas banco_vazio ops.

(** The data model gives an event a capacity that is not negative;
    [criar_evento] itself stores whatever capacity SQLite can hold. *)
Definition capacidade_valida (o : operacao) : Prop :=
  match o with
  | OpCriarEvento c => 0 <= c
  | _ => True
  end.

(** ** Quantities the claims speak of *)

(** An enrollment that holds a slot: [confirmada] or [presente]. *)
Definition ocupa_vaga (i : inscricao) : bool :=
  negb (status_eqb (in_status i) Cancelada).

Definition inscricoes_ativas (ins : list inscricao) (evento_id : Z) : nat :=
  length (filter (fun i => (in_evento_id i =? evento_id) && ocupa_vaga i) ins).

(** [capacidade_maxima - vagas_disponiveis], the [inscritos] column of
    [eventos_por_categoria]. *)
Definition confirmed_count (ev : evento) : Z :=
  ev_capacidade_maxima ev - ev_vagas_disponiveis ev.

(** The key of [UNIQUE(participante_id, evento_id)]. *)
Definition par_inscricao (i : inscricao) : Z * Z :=
  (in_participante_id i, in_evento_id i).

(** The key of the positions of one event's waiting list. *)
Definition chave_posicao (l : espera) : Z * Z :=
  (le_evento_id l, le_posicao l).

(** What the schema and the functions keep true of the store: primary and
    unique keys hold, an enrollment names an event of the store, every
    event's counter agrees with its enrollments, and the positions of one
    event's waiting list are pairwise distinct. *)
Record consistente (db : banco) : Prop := mk_consistente {
  cs_eventos : NoDup (map ev_id (eventos db));
  cs_pares : NoDup (map par_inscricao (inscricoes db));
  cs_codigos : NoDup (map in_codigo_confirmacao (inscricoes db));
  cs_referencia : incl (map in_evento_id (inscricoes db)) (map ev_id (eventos db));
  cs_contagem : forall ev, In ev (eventos db) ->
      confirmed_count ev = Z.of_nat (inscricoes_ativas (inscricoes db) (ev_id ev));
  cs_posicoes : NoDup (map chave_posicao (lista_espera db))
}.

Definition vagas_nao_negativas (db : banco) : Prop :=
  forall ev, In ev (eventos db) -> 0 <= ev_vagas_disponiveis ev.

(** A confirmation code that can no longer check anybody in: some row
    carries it, and no row that carries it is [confirmada]. *)
Definition codigo_esgotado (c : string) (db : banco) : Prop :=
  In c (map in_codigo_confirmacao (inscricoes db))
  /\ forall i, In i (inscricoes db) ->
               in_codigo_confirmacao i = c -> in_status i <> Confirmada.

(** ** The rest of the file *)

(** *** The life of an enrollment row *)

(** How a row of [inscricoes] may differ between two moments: it keeps its
    id, participant, event, code and date, and either is untouched or has
    left [confirmada] for [cancelada] or for [presente]. *)
Definition evolui (i i' : inscricao) : Prop :=
  in_id i' = in_id i
  /\ in_participante_id i' = in_participante_id i
  /\ in_evento_id i' = in_evento_id i
  /\ in_codigo_confirmacao i' = in_codigo_confirmacao i
  /\ in_data_inscricao i' = in_data_inscricao i
  /\ (i' = i
      \/ (in_status i = Confirmada /\ in_status i' = Cancelada)
      \/ (in_status i = Confirmada /\ in_status i' = Presente)).

(** The [presente] flag and [data_checkin] say what [status] says. *)
Definition registro_coerente (i : inscricao) : Prop :=
  in_presente i = status_eqb (in_status i) Presente
  /\ match in_data_checkin i with
     | Some _ => in_status i = Presente
     | None => in_status i <> Presente
     end.

(** The key of [UNIQUE(participante_id, evento_id)] of [lista_espera]. *)
Definition par_espera (l : espera) : Z * Z :=
  (le_participante_id l, le_evento_id l).

(** The entries of one event, in arrival order. *)
Definition fila_do_evento (les : list espera) (evento_id : Z) : list espera :=
  filter (fun l => le_evento_id l =? evento_id) les.

(** The numbers 1, 2, ..., n. *)
Definition de_1_a (n : nat) : list Z :=
  map Z.of_nat (seq 1 n).

(** *** [gerar_codigo_confirmacao] *)

(** [string.ascii_uppercase + string.digits] *)
Definition alfabeto_codigo : list Ascii.ascii :=
  list_ascii_of_string "ABCDEFGHIJKLMNOPQRSTUVWXYZ0123456789".

(** [''.join(random.choices(alfabeto, k=10))]: [random.choices] picks
    [alfabeto[floor(random() * 36)]] ten times; [sorteio] holds the ten
    indices drawn. *)
Definition gerar_codigo_confirmacao (sorteio : list nat) : string :=
  string_of_list_ascii
    (map (fun k => nth k alfabeto_codigo Ascii.zero) sorteio).

Definition sorteio_valido (sorteio : list nat) : Prop :=
  length sorteio = 10%nat /\ Forall (fun k => (k < 36)%nat) sorteio.

(** *** The counts of [relatorio_evento] *)

(** [SUM(CASE WHEN cond THEN 1 ELSE 0 END)] over the selected rows: NULL
    when no row is selected. *)
Definition soma_casos {A : Type} (cond : A -> bool) (linhas : list A) : option nat :=
  match linhas with
  | [] => None
  | _ => Some (length (filter cond linhas))
  end.

(** [SELECT COUNT( * ), SUM(CASE WHEN status = 'confirmada' ...),
    SUM(CASE WHEN status = 'cancelada' ...), SUM(CASE WHEN presente = 1 ...)
    FROM inscricoes WHERE evento_id = ?] *)
Definition estatisticas_inscricoes (ins : list inscricao) (evento_id : Z)
    : nat * option nat * option nat * option nat :=
  let linhas := filter (fun i => in_evento_id i =? evento_id) ins in
  (length linhas,
   soma_casos (fun i => status_eqb (in_status i) Confirmada) linhas,
   soma_casos (fun i => status_eqb (in_status i) Cancelada) linhas,
   soma_casos (fun i => in_presente i) linhas).

(** *** Users and ratings *)

(** A row of [usuarios]; [telefone] and [cpf_cnpj] may be NULL. *)
Record usuario : Type := mk_usuario {
  us_id : Z;
  us_nome : string;
  us_email : string;
  us_senha : string;
  us_telefone : option string;
  us_cpf_cnpj : option string;
  us_tipo_usuario : string;
  us_data_cadastro : string
}.

(** A row of [avaliacoes]. *)
Record avaliacao : Type := mk_avaliacao {
  av_id : Z;
  av_participante_id : Z;
  av_evento_id : Z;
  av_nota : Z;
  av_comentario : string;
  av_data_avaliacao : string
}.

(** The whole database: the three tables of the enrollment functions, and
    the two the other functions write. *)
Record sistema : Type := mk_sistema {
  nucleo : banco;
  usuarios : list usuario;
  avaliacoes : list avaliacao
}.

Definition sistema_vazio : sistema :=
  {| nucleo := banco_vazio; usuarios := []; avaliacoes := [] |}.

Inductive mensagem_sistema : Type :=
| MsgUsuarioCadastrado (usuario_id : Z)
| MsgErroIntegridade
| MsgPrecisaTerParticipado
| MsgAvaliacaoRegistrada
| MsgJaAvaliou.

Record saida_sistema (A : Type) : Type := mk_saida_sistema {
  sistema_final : sistema;
  retorno_sistema : A;
  impresso_sistema : mensagem_sistema
}.
Arguments mk_saida_sistema {A} _ _ _.
Arguments sistema_final {A} _.
Arguments retorno_sistema {A} _.
Arguments impresso_sistema {A} _.

(** [CHECK(tipo_usuario IN ('participante', 'organizador', 'patrocinador'))] *)
Definition tipo_usuario_valido (tipo : string) : bool :=
  String.eqb tipo "participante"
  || String.eqb tipo "organizador"
  || String.eqb tipo "patrocinador".

Definition mesmo_email (email : string) (u : usuario) : bool :=
  String.eqb (us_email u) email.

(** [cpf_cnpj TEXT UNIQUE]: NULLs never collide. *)
Definition mesmo_cpf_cnpj (cpf_cnpj : option string) (u : usuario) : bool :=
  match cpf_cnpj, us_cpf_cnpj u with
  | Some c, Some c' => String.eqb c' c
  | _, _ => false
  end.

(** [INSERT INTO usuarios (nome, email, senha, telefone, cpf_cnpj, tipo_usuario)]:
    [None] stands for [sqlite3.IntegrityError]. *)
Definition inserir_usuario (us : list usuario) (nome email senha_hash : string)
    (telefone cpf_cnpj : option string) (tipo_usuario agora : string)
    : option (list usuario * Z) :=
  if negb (tipo_usuario_valido tipo_usuario)
     || existsb (mesmo_email email) us
     || existsb (mesmo_cpf_cnpj cpf_cnpj) us
  then None
  else
    let novo_id := proximo_id (map us_id us) in
    Some (us ++ [ {| us_id := novo_id;
                     us_nome := nome;
                     us_email := email;
                     us_senha := senha_hash;
                     us_telefone := telefone;
                     us_cpf_cnpj := cpf_cnpj;
                     us_tipo_usuario := tipo_usuario;
                     us_data_cadastro := agora |} ],
          novo_id).

(** [listar_usuarios(tipo=None)]: [if tipo:] is false for [None] and for
    the empty string. *)
Definition listar_usuarios (s : sistema) (tipo : option string) : list usuario :=
  match tipo with
  | None => usuarios s
  | Some t =>
      if String.eqb t ""
      then usuarios s
      else filter (fun u => String.eqb (us_tipo_usuario u) t) (usuarios s)
  end.

(** [SELECT presente FROM inscricoes WHERE participante_id = ? AND evento_id = ?]
    then [fetchone()]. *)
Definition selecionar_presente (ins : list inscricao) (participante_id evento_id : Z)
    : option bool :=
  option_map in_presente (find (mesmo_par participante_id evento_id) ins).

(** [CHECK(nota >= 1 AND nota <= 5)] *)
Definition nota_valida (nota : Z) : bool :=
  (1 <=? nota) && (nota <=? 5).

Definition par_avaliacao (a : avaliacao) : Z * Z :=
  (av_participante_id a, av_evento_id a).

Definition mesmo_par_avaliacao (participante_id evento_id : Z) (a : avaliacao) : bool :=
  (av_participante_id a =? participante_id) && (av_evento_id a =? evento_id).

(** [INSERT INTO avaliacoes (participante_id, evento_id, nota, comentario)] *)
Definition inserir_avaliacao (avs : list avaliacao) (participante_id evento_id nota : Z)
    (comentario agora : string) : option (list avaliacao) :=
  if negb (nota_valida nota)
     || existsb (mesmo_par_avaliacao participante_id evento_id) avs
  then None
  else Some (avs ++ [ {| av_id := proximo_id (map av_id avs);
                         av_participante_id := participante_id;
                         av_evento_id := evento_id;
                         av_nota := nota;
                         av_comentario := comentario;
                         av_data_avaliacao := agora |} ]).

(** [avaliar_evento]: [if not resultado or not resultado[0]] turns away
    whoever has no enrollment row for the event or one not marked present. *)
Definition avaliar_evento (s : sistema) (agora : string)
    (participante_id evento_id nota : Z) (comentario : string) : saida_sistema bool :=
  match selecionar_presente (inscricoes (nucleo s)) participante_id evento_id with
  | Some true =>
      match inserir_avaliacao (avaliacoes s) participante_id evento_id nota comentario agora with
      | Some novas =>
          mk_saida_sistema
            {| nucleo := nucleo s; usuarios := usuarios s; avaliacoes := novas |}
            true MsgAvaliacaoRegistrada
      | None => mk_saida_sistema s false MsgJaAvaliou
      end
  | _ => mk_saida_sistema s false MsgPrecisaTerParticipado
  end.

Section Digest.

(** [hashlib.sha256(senha.encode()).hexdigest()] *)
Variable sha256_hexdigest : string -> string.

Definition cadastrar_usuario (s : sistema) (agora nome email senha : string)
    (telefone cpf_cnpj : option string) (tipo_usuario : string) : saida_sistema (option Z) :=
  let senha_hash := sha256_hexdigest senha in
  match inserir_usuario (usuarios s) nome email senha_hash telefone cpf_cnpj
                        tipo_usuario agora with
  | Some (novos, usuario_id) =>
      mk_saida_sistema
        {| nucleo := nucleo s; usuarios := novos; avaliacoes := avaliacoes s |}
        (Some usuario_id) (MsgUsuarioCadastrado usuario_id)
  | None => mk_saida_sistema s None MsgErroIntegridade
  end.

(** Calls on the whole database. *)
Inductive operacao_sistema : Type :=
| OpNucleo (o : operacao)
| OpCadastrar (agora nome email senha : string) (telefone cpf_cnpj : option string)
              (tipo_usuario : string)
| OpAvaliar (agora : string) (participante_id evento_id nota : Z) (comentario : string).

Definition executar_sistema (s : sistema) (o : operacao_sistema) : sistema :=
  match o with
  | OpNucleo o' =>
      {| nucleo := executar (nucleo s) o'; usuarios := usuarios s; avaliacoes := avaliacoes s |}
  | OpCadastrar agora nome email senha telefone cpf_cnpj tipo =>
      sistema_final (cadastrar_usuario s agora nome email senha telefone cpf_cnpj tipo)
  | OpAvaliar agora p e nota comentario =>
      sistema_final (avaliar_evento s agora p e nota comentario)
  end.

Definition executar_todas_sistema (s : sistema) (ops : list operacao_sistema) : sistema :=
  fold_left executar_sistema ops s.

Definition alcancavel_sistema (s : sistema) : Prop :=
  exists ops, s = executar_todas_sistema sistema_vazio ops.

End Digest.

(** Somebody who checked in at the event. *)
Definition compareceu (db : banco) (participante_id evento_id : Z) : Prop :=
  exists i, In i (inscricoes db)
            /\ par_inscricao i = (participante_id, evento_id)
            /\ in_status i = Presente.

(** The [cpf_cnpj] values on file, NULLs left out. *)
Definition documentos (us : list usuario) : list string :=
  flat_map (fun u => match us_cpf_cnpj u with
                     | Some c => [c]
                     | None => []
                     end) us.

(** ** Scenarios *)

Definition instante : string := "2024-05-01 10:00:00".

(** An event of capacity 2, participants 1 and 2 enrolled, participant 3
    turned away and put on the waiting list. *)
Definition cenario_lotado : banco :=
  executar_todas banco_vazio
    [OpCriarEvento 2;
     OpInscrever "A1B2C3D4E5" instante 1 1;
     OpInscrever "F6G7H8I9J0" instante 2 1;
     OpInscrever "K1L2M3N4O5" instante 3 1;
     OpListaEspera instante 3 1].

(** An event of capacity 2 whose only enrollment was cancelled. *)
Definition cenario_cancelado : banco :=
  executar_todas banco_vazio
    [OpCriarEvento 2;
     OpInscrever "A1B2C3D4E5" instante 1 1;
     OpCancelar 1 1].

(** An event of capacity 1, nobody enrolled yet. *)
Definition cenario_ultima_vaga : banco :=
  executar_todas banco_vazio [OpCriarEvento 1].

(** An event of capacity 3 with one enrollment checked in and one cancelled. *)
Definition cenario_checkin : banco :=
  executar_todas banco_vazio
    [OpCriarEvento 3;
     OpInscrever "A1B2C3D4E5" instante 1 1;
     OpInscrever "F6G7H8I9J0" instante 2 1;
     OpCheckin "A1B2C3D4E5" instante;
     OpCancelar 2 1].

(** A stand-in for the digest in the scenarios below; the statements hold
    for any digest function. *)
Definition resumo_de_exemplo (senha : string) : string :=
  String.append "sha256:" senha.

(** An organizer, two participants and a sponsor; an event of capacity 100
    with both participants enrolled; the first has checked in and rated. *)
Definition cenario_sistema : sistema :=
  executar_todas_sistema resumo_de_exemplo sistema_vazio
    [OpCadastrar instante "Maria Silva" "maria@cultura.com" "senha123"
                 (Some "21999991111"%string) (Some "12345678901"%string) "organizador";
     OpCadastrar instante "Ana Costa" "ana@email.com" "senha789"
                 (Some "21999993333"%string) (Some "11122233344"%string) "participante";
     OpCadastrar instante "Pedro Oliveira" "pedro@email.com" "senha321"
                 None None "participante";
     OpCadastrar instante "Empresa Cultural LTDA" "contato@empresa.com" "senha987"
                 (Some "21999996666"%string) (Some "12345678000199"%string) "patrocinador";
     OpNucleo (OpCriarEvento 100);
     OpNucleo (OpInscrever "A1B2C3D4E5" instante 2 1);
     OpNucleo (OpInscrever "F6G7H8I9J0" instante 3 1);
     OpNucleo (OpCheckin "A1B2C3D4E5" instante);
     OpAvaliar instante 2 1 5 "Evento maravilhoso!"].

(** Ten draws of [random.choices]. *)
Definition sorteio_de_exemplo : list nat :=
  [0; 27; 1; 28; 2; 29; 3; 30; 4; 31]%nat.

(** * Properties *)

(** ** The statements, one table at a time *)

Section Statements.

Lemma menor_que_proximo_id (ids : list Z) (x : Z) :
  In x ids -> x < proximo_id ids.
Proof.
  unfold proximo_id.
  induction ids as [|y ids IH]; simpl; [easy|].
  intros [->|Hin]; [lia|]. specialize (IH Hin). lia.
Qed.

Lemma proximo_id_novo (ids : list Z) : ~ In (proximo_id ids) ids.
Proof. intros Hin. apply menor_que_proximo_id in Hin. lia. Qed.

Lemma NoDup_snoc {A : Type} (l : list A) (x : A) :
  NoDup l -> ~ In x l -> NoDup (l ++ [x]).
Proof.
  intros Hnd Hx. induction Hnd as [|y l Hy Hnd IH]; simpl.
  - constructor; [easy | constructor].
  - constructor.
    + rewrite in_app_iff. simpl. intros [H|[H|[]]]; [easy|].
      apply Hx. left. now symmetry.
    + apply IH. intros H. apply Hx. now right.
Qed.

Lemma NoDup_map_inj_on {A B : Type} (f : A -> B) (l : list A) (a b : A) :
  NoDup (map f l) -> In a l -> In b l -> f a = f b -> a = b.
Proof.
  induction l as [|x l IH]; simpl; [easy|].
  intros Hnd Ha Hb Hf. inversion Hnd as [|? ? Hx Hnd']; subst.
  destruct Ha as [->|Ha], Hb as [->|Hb]; try reflexivity.
  - exfalso. apply Hx. rewrite Hf. now apply in_map.
  - exfalso. apply Hx. rewrite <- Hf. now apply in_map.
  - now apply IH.
Qed.

(** *** [eventos] *)

Lemma ids_atualizar_vagas (evs : list evento) (e d : Z) :
  map ev_id (atualizar_vagas evs e d) = map ev_id evs.
Proof.
  unfold atualizar_vagas. rewrite map_map. apply map_ext.
  intros ev. now destruct (ev_id ev =? e).
Qed.

Lemma In_atualizar_vagas (evs : list evento) (e d : Z) (ev' : evento) :
  In ev' (atualizar_vagas evs e d) ->
  exists ev, In ev evs /\ ev_id ev' = ev_id ev
             /\ ev_capacidade_maxima ev' = ev_capacidade_maxima ev
             /\ ev_vagas_disponiveis ev' =
                ev_vagas_disponiveis ev + (if ev_id ev =? e then d else 0).
Proof.
  unfold atualizar_vagas. rewrite in_map_iff. intros (ev & <- & Hin).
  exists ev. split; [easy|]. destruct (ev_id ev =? e); simpl; repeat split; lia.
Qed.

Lemma selecionar_vagas_Some (evs : list evento) (e v : Z) :
  selecionar_vagas evs e = Some v ->
  exists ev, In ev evs /\ ev_id ev = e /\ ev_vagas_disponiveis ev = v.
Proof.
  unfold selecionar_vagas, buscar_evento.
  destruct (find _ evs) as [ev|] eqn:Hf; simpl; [|easy].
  intros [= <-]. apply find_some in Hf as [Hin Hid].
  exists ev. repeat split; [easy | lia].
Qed.

Lemma selecionar_vagas_None (evs : list evento) (e : Z) :
  selecionar_vagas evs e = None <-> ~ In e (map ev_id evs).
Proof.
  unfold selecionar_vagas, buscar_evento. split.
  - destruct (find _ evs) as [ev|] eqn:Hf; simpl; [easy|]. intros _.
    rewrite in_map_iff. intros (ev & Hid & Hin).
    apply (find_none _ _ Hf) in Hin. lia.
  - intros Hn. destruct (find _ evs) as [ev|] eqn:Hf; simpl; [|easy].
    exfalso. apply Hn. apply find_some in Hf as [Hin Hid].
    rewrite in_map_iff. exists ev. split; [lia | easy].
Qed.

Lemma selecionar_vagas_unico (evs : list evento) (ev : evento) :
  NoDup (map ev_id evs) -> In ev evs ->
  selecionar_vagas evs (ev_id ev) = Some (ev_vagas_disponiveis ev).
Proof.
  intros Hnd Hin.
  destruct (selecionar_vagas evs (ev_id ev)) as [v|] eqn:Hs.
  - apply selecionar_vagas_Some in Hs as (ev2 & Hin2 & Hid & <-).
    now rewrite (NoDup_map_inj_on ev_id evs ev2 ev Hnd Hin2 Hin Hid).
  - apply selecionar_vagas_None in Hs. exfalso. apply Hs. now apply in_map.
Qed.

(** *** [inscricoes] *)

Lemma mesmo_par_true (p e : Z) (i : inscricao) :
  mesmo_par p e i = true <-> par_inscricao i = (p, e).
Proof.
  unfold mesmo_par, par_inscricao. rewrite andb_true_iff, !Z.eqb_eq.
  split; [intros [-> ->]; reflexivity | intros [= -> ->]; easy].
Qed.

Lemma mesmo_codigo_true (c : string) (i : inscricao) :
  mesmo_codigo c i = true <-> in_codigo_confirmacao i = c.
Proof. unfold mesmo_codigo. apply String.eqb_eq. Qed.

Lemma status_eqb_true (a b : status_inscricao) :
  status_eqb a b = true <-> a = b.
Proof. destruct a, b; simpl; split; congruence. Qed.

Lemma existsb_false_In {A B : Type} (f : A -> bool) (g : A -> B) (y : B) (l : list A) :
  (forall a, f a = true <-> g a = y) ->
  existsb f l = false <-> ~ In y (map g l).
Proof.
  intros Hfg. rewrite in_map_iff. split.
  - intros Hex (a & Hg & Hin).
    assert (existsb f l = true) by (apply existsb_exists; exists a; split; [easy | now apply Hfg]).
    congruence.
  - intros Hn. destruct (existsb f l) eqn:Hex; [|easy].
    apply existsb_exists in Hex as (a & Hin & Hf). exfalso. apply Hn.
    exists a. split; [now apply Hfg | easy].
Qed.

Lemma inserir_inscricao_Some (ins novas : list inscricao) (p e id : Z) (c t : string) :
  inserir_inscricao ins p e c t = Some (novas, id) ->
  ~ In (p, e) (map par_inscricao ins)
  /\ ~ In c (map in_codigo_confirmacao ins)
  /\ id = proximo_id (map in_id ins)
  /\ novas = ins ++ [mk_inscricao id p e t Confirmada c false None].
Proof.
  unfold inserir_inscricao.
  destruct (existsb (mesmo_par p e) ins) eqn:Hp; simpl; [easy|].
  destruct (existsb (mesmo_codigo c) ins) eqn:Hc; simpl; [easy|].
  intros [= <- <-].
  rewrite (existsb_false_In _ par_inscricao (p, e)) in Hp by apply mesmo_par_true.
  rewrite (existsb_false_In _ in_codigo_confirmacao c) in Hc by apply mesmo_codigo_true.
  easy.
Qed.

Lemma inserir_inscricao_None (ins : list inscricao) (p e : Z) (c t : string) :
  inserir_inscricao ins p e c t = None <->
  In (p, e) (map par_inscricao ins) \/ In c (map in_codigo_confirmacao ins).
Proof.
  unfold inserir_inscricao.
  destruct (existsb (mesmo_par p e) ins) eqn:Hp; simpl.
  - split; [intros _; left | easy].
    apply existsb_exists in Hp as (i & Hin & Hi). apply mesmo_par_true in Hi.
    rewrite <- Hi. now apply in_map.
  - destruct (existsb (mesmo_codigo c) ins) eqn:Hc; simpl.
    + split; [intros _; right | easy].
      apply existsb_exists in Hc as (i & Hin & Hi). apply mesmo_codigo_true in Hi.
      rewrite <- Hi. now apply in_map.
    + rewrite (existsb_false_In _ par_inscricao (p, e)) in Hp by apply mesmo_par_true.
      rewrite (existsb_false_In _ in_codigo_confirmacao c) in Hc by apply mesmo_codigo_true.
      split; [easy | tauto].
Qed.

Lemma length_filter_zero {A : Type} (f : A -> bool) (l : list A) :
  length (filter f l) = 0%nat <-> forall a, In a l -> f a = false.
Proof.
  induction l as [|x l IH]; simpl; [easy|]. destruct (f x) eqn:Hx; simpl.
  - split; [easy|]. intros H. specialize (H x (or_introl eq_refl)). congruence.
  - rewrite IH. split.
    + intros H a [<-|Hin]; auto.
    + intros H a Hin. apply H. now right.
Qed.

Lemma map_id_on {A : Type} (f : A -> A) (l : list A) :
  (forall a, In a l -> f a = a) -> map f l = l.
Proof.
  intros H. induction l as [|x l IH]; simpl; [easy|].
  rewrite H by now left. f_equal. apply IH. intros a Ha. apply H. now right.
Qed.

(** ** The four paths of [inscrever_participante], the two of the others *)

Lemma inscrever_participante_casos (db : banco) (c t : string) (p e : Z) :
  (selecionar_vagas (eventos db) e = None
   /\ inscrever_participante db c t p e = mk_saida db RetNone MsgEventoNaoEncontrado)
  \/ (exists v, selecionar_vagas (eventos db) e = Some v /\ v <= 0
       /\ inscrever_participante db c t p e = mk_saida db RetListaEspera MsgSemVagas)
  \/ (exists v, selecionar_vagas (eventos db) e = Some v /\ 0 < v
       /\ inserir_inscricao (inscricoes db) p e c t = None
       /\ inscrever_participante db c t p e = mk_saida db RetNone MsgJaInscrito)
  \/ (exists v novas id, selecionar_vagas (eventos db) e = Some v /\ 0 < v
       /\ inserir_inscricao (inscricoes db) p e c t = Some (novas, id)
       /\ inscrever_participante db c t p e =
          mk_saida {| eventos := atualizar_vagas (eventos db) e (-1);
                      inscricoes := novas;
                      lista_espera := lista_espera db |}
                   (RetId id) (MsgInscricaoRealizada c)).
Proof.
  unfold inscrever_participante.
  destruct (selecionar_vagas (eventos db) e) as [v|]; [|now left].
  right. destruct (Z.leb_spec v 0) as [Hv|Hv].
  - left. now exists v.
  - right. destruct (inserir_inscricao (inscricoes db) p e c t) as [[novas id]|].
    + right. now exists v, novas, id.
    + left. now exists v.
Qed.

Lemma criar_evento_casos (db : banco) (c : Z) :
  (inteiro_sqlite c = true
   /\ criar_evento db c =
      mk_saida {| eventos := eventos db
                             ++ [mk_evento (proximo_id (map ev_id (eventos db))) c c];
                  inscricoes := inscricoes db;
                  lista_espera := lista_espera db |}
               (Some (proximo_id (map ev_id (eventos db))))
               (MsgEventoCriado (proximo_id (map ev_id (eventos db)))))
  \/ (inteiro_sqlite c = false
      /\ criar_evento db c = mk_saida db None MsgErroAoCriarEvento).
Proof.
  unfold criar_evento. destruct (inteiro_sqlite c); [left | right]; easy.
Qed.

Lemma cancelar_inscricao_casos (db : banco) (p e : Z) :
  (length (filter (alvo_cancelamento p e) (inscricoes db)) = 0%nat
   /\ cancelar_inscricao db p e = mk_saida db false MsgInscricaoNaoEncontradaOuJaCancelada)
  \/ ((0 < length (filter (alvo_cancelamento p e) (inscricoes db)))%nat
       /\ cancelar_inscricao db p e =
          mk_saida {| eventos := atualizar_vagas (eventos db) e 1;
                      inscricoes := fst (atualizar_cancelada (inscricoes db) p e);
                      lista_espera := lista_espera db |}
                   true MsgInscricaoCancelada).
Proof.
  unfold cancelar_inscricao, atualizar_cancelada. cbn [fst].
  destruct (Nat.ltb_spec 0 (length (filter (alvo_cancelamento p e) (inscricoes db))));
    [right | left]; split; try easy; lia.
Qed.

Lemma realizar_checkin_casos (db : banco) (c t : string) :
  (length (filter (alvo_checkin c) (inscricoes db)) = 0%nat
   /\ realizar_checkin db c t = mk_saida db false MsgCodigoInvalidoOuCheckinJaRealizado)
  \/ ((0 < length (filter (alvo_checkin c) (inscricoes db)))%nat
       /\ realizar_checkin db c t =
          mk_saida {| eventos := eventos db;
                      inscricoes := fst (atualizar_presente (inscricoes db) c t);
                      lista_espera := lista_espera db |}
                   true MsgCheckinRealizado).
Proof.
  unfold realizar_checkin, atualizar_presente. cbn [fst].
  destruct (Nat.ltb_spec 0 (length (filter (alvo_checkin c) (inscricoes db))));
    [right | left]; split; try easy; lia.
Qed.

Lemma alvo_cancelamento_true (p e : Z) (i : inscricao) :
  alvo_cancelamento p e i = true <->
  in_participante_id i = p /\ in_evento_id i = e /\ in_status i = Confirmada.
Proof.
  unfold alvo_cancelamento. rewrite andb_true_iff, mesmo_par_true, status_eqb_true.
  unfold par_inscricao. split; [intros [[= -> ->] ->] | intros (-> & -> & ->)]; easy.
Qed.

Lemma alvo_checkin_true (c : string) (i : inscricao) :
  alvo_checkin c i = true <-> in_codigo_confirmacao i = c /\ in_status i = Confirmada.
Proof.
  unfold alvo_checkin. now rewrite andb_true_iff, mesmo_codigo_true, status_eqb_true.
Qed.

Lemma not_true_false (b : bool) : ~ b = true -> b = false.
Proof. now destruct b. Qed.

(** ** Enrolling *)

(** C4: on an existing event with no slot left ([vagas_disponiveis <= 0])
    [inscrever_participante] answers ['lista_espera'] (the caller is sent to
    the waiting list) and the store is the one it started from: no
    enrollment row is created and no counter moves. *)
Theorem inscrever_participante_sem_vagas (db : banco) (c t : string) (p e vagas : Z) :
  selecionar_vagas (eventos db) e = Some vagas ->
  vagas <= 0 ->
  retorno (inscrever_participante db c t p e) = RetListaEspera
  /\ impresso (inscrever_participante db c t p e) = MsgSemVagas
  /\ inscricoes (banco_final (inscrever_participante db c t p e)) = inscricoes db
  /\ eventos (banco_final (inscrever_participante db c t p e)) = eventos db
  /\ banco_final (inscrever_participante db c t p e) = db.
Proof.
  intros Hsel Hv. unfold inscrever_participante. rewrite Hsel.
  destruct (Z.leb_spec vagas 0); [now cbn | lia].
Qed.

(** C10: whichever way [inscrever_participante] fails (event not found, no
    slot left, pair already enrolled, confirmation code already in use),
    that is whenever it returns [None] or ['lista_espera'], the store is
    unchanged: no enrollment row is created and [vagas_disponiveis] keeps
    its value. *)
Theorem inscrever_participante_falha_atomica (db : banco) (c t : string) (p e : Z) :
  retorno (inscrever_participante db c t p e) = RetNone
  \/ retorno (inscrever_participante db c t p e) = RetListaEspera ->
  inscricoes (banco_final (inscrever_participante db c t p e)) = inscricoes db
  /\ eventos (banco_final (inscrever_participante db c t p e)) = eventos db
  /\ banco_final (inscrever_participante db c t p e) = db.
Proof.
  destruct (inscrever_participante_casos db c t p e)
    as [[_ ->]|[(v & _ & _ & ->)|[(v & _ & _ & _ & ->)|(v & novas & id & _ & _ & _ & ->)]]];
    cbn; intros [H|H]; try discriminate; easy.
Qed.

(** ** Cancelling *)

(** C7: when the pair has no enrollment in state [confirmada] (none at all,
    or only a cancelled or attended one) [cancelar_inscricao] returns
    [False] with its not-found line, and the store is unchanged. *)
Theorem cancelar_inscricao_sem_confirmada (db : banco) (p e : Z) :
  (forall i, In i (inscricoes db) ->
             in_participante_id i = p -> in_evento_id i = e ->
             in_status i <> Confirmada) ->
  retorno (cancelar_inscricao db p e) = false
  /\ impresso (cancelar_inscricao db p e) = MsgInscricaoNaoEncontradaOuJaCancelada
  /\ banco_final (cancelar_inscricao db p e) = db.
Proof.
  intros Hno.
  destruct (cancelar_inscricao_casos db p e) as [[_ ->]|[Hpos _]]; [easy|].
  exfalso.
  assert (Hz : length (filter (alvo_cancelamento p e) (inscricoes db)) = 0%nat).
  { apply length_filter_zero. intros i Hin. apply not_true_false.
    rewrite alvo_cancelamento_true. intros (Hp & He & Hs). now apply (Hno i). }
  lia.
Qed.

(** ** Check-in *)

Lemma realizar_checkin_sem_alvo (db : banco) (c t : string) :
  (forall i, In i (inscricoes db) ->
             in_codigo_confirmacao i = c -> in_status i <> Confirmada) ->
  realizar_checkin db c t = mk_saida db false MsgCodigoInvalidoOuCheckinJaRealizado.
Proof.
  intros Hno.
  destruct (realizar_checkin_casos db c t) as [[_ ->]|[Hpos _]]; [easy|].
  exfalso.
  assert (Hz : length (filter (alvo_checkin c) (inscricoes db)) = 0%nat).
  { apply length_filter_zero. intros i Hin. apply not_true_false.
    rewrite alvo_checkin_true. intros [Hc Hs]. now apply (Hno i). }
  lia.
Qed.

(** C6, as the code has it: [realizar_checkin] has one failure outcome.
    Whenever no row carries the code in state [confirmada] (no row carries
    the code, or the row that does is already [presente], or it is
    [cancelada]) the call returns [False], prints its one
    invalid-code-or-already-checked-in line and leaves the store unchanged. *)
Theorem realizar_checkin_falha_unica (db : banco) (c t : string) :
  (forall i, In i (inscricoes db) -> in_codigo_confirmacao i <> c)
  \/ (forall i, In i (inscricoes db) -> in_codigo_confirmacao i = c -> in_status i = Presente)
  \/ (forall i, In i (inscricoes db) -> in_codigo_confirmacao i = c -> in_status i = Cancelada) ->
  realizar_checkin db c t = mk_saida db false MsgCodigoInvalidoOuCheckinJaRealizado.
Proof.
  intros [Hnenhuma|[Hpresente|Hcancelada]]; apply realizar_checkin_sem_alvo; intros i Hin Hc Hs.
  - now apply (Hnenhuma i).
  - specialize (Hpresente i Hin Hc). congruence.
  - specialize (Hcancelada i Hin Hc). congruence.
Qed.

(** ** Counting the enrollments that hold a slot *)

Lemma ativas_snoc (ins : list inscricao) (i : inscricao) (e : Z) :
  inscricoes_ativas (ins ++ [i]) e =
  (inscricoes_ativas ins e
   + (if (in_evento_id i =? e)%Z && ocupa_vaga i then 1 else 0))%nat.
Proof.
  unfold inscricoes_ativas. rewrite filter_app, length_app. cbn [filter].
  now destruct ((in_evento_id i =? e) && ocupa_vaga i).
Qed.

Lemma ativas_zero (ins : list inscricao) (e : Z) :
  ~ In e (map in_evento_id ins) -> inscricoes_ativas ins e = 0%nat.
Proof.
  intros Hn. apply length_filter_zero. intros i Hin.
  apply andb_false_iff. left. apply Z.eqb_neq. intros He. apply Hn.
  rewrite <- He. now apply in_map.
Qed.

Lemma ativas_cancelada (ins : list inscricao) (p e e' : Z) :
  (inscricoes_ativas (fst (atualizar_cancelada ins p e)) e'
   + (if (e =? e')%Z then length (filter (alvo_cancelamento p e) ins) else 0)
   = inscricoes_ativas ins e')%nat.
Proof.
  unfold inscricoes_ativas, atualizar_cancelada. cbn [fst].
  induction ins as [|i ins IH]; [now destruct (e =? e')|].
  cbn [map filter]. destruct (alvo_cancelamento p e i) eqn:Ha.
  - apply alvo_cancelamento_true in Ha as (_ & He & Hs).
    assert (Hdepois : (in_evento_id (com_status Cancelada i) =? e')
                      && ocupa_vaga (com_status Cancelada i) = false)
      by apply andb_false_r.
    assert (Hantes : (in_evento_id i =? e') && ocupa_vaga i = (e =? e'))
      by (unfold ocupa_vaga; rewrite Hs, He; apply andb_true_r).
    rewrite Hdepois, Hantes. destruct (e =? e'); cbn [length] in *; lia.
  - destruct ((in_evento_id i =? e') && ocupa_vaga i); cbn [length]; lia.
Qed.

Lemma ativas_presente (ins : list inscricao) (c t : string) (e' : Z) :
  inscricoes_ativas (fst (atualizar_presente ins c t)) e' = inscricoes_ativas ins e'.
Proof.
  unfold inscricoes_ativas, atualizar_presente. cbn [fst].
  induction ins as [|i ins IH]; [easy|].
  cbn [map filter]. destruct (alvo_checkin c i) eqn:Ha.
  - apply alvo_checkin_true in Ha as [_ Hs].
    assert (Hdepois : (in_evento_id (marcar_presente t i) =? e')
                      && ocupa_vaga (marcar_presente t i) = (in_evento_id i =? e'))
      by apply andb_true_r.
    assert (Hantes : (in_evento_id i =? e') && ocupa_vaga i = (in_evento_id i =? e'))
      by (unfold ocupa_vaga; rewrite Hs; apply andb_true_r).
    rewrite Hdepois, Hantes. destruct (in_evento_id i =? e'); cbn [length]; lia.
  - destruct ((in_evento_id i =? e') && ocupa_vaga i); cbn [length]; lia.
Qed.

(** Under [UNIQUE(participante_id, evento_id)] the cancelling UPDATE
    touches one row at most. *)
Lemma rowcount_cancelada_le_1 (ins : list inscricao) (p e : Z) :
  NoDup (map par_inscricao ins) ->
  (length (filter (alvo_cancelamento p e) ins) <= 1)%nat.
Proof.
  induction ins as [|i ins IH]; cbn [map filter]; [cbn; lia|].
  intros Hnd. inversion Hnd as [|? ? Hi Hnd']; subst.
  destruct (alvo_cancelamento p e i) eqn:Ha; [|now apply IH].
  cbn [length]. enough (length (filter (alvo_cancelamento p e) ins) = 0%nat) by lia.
  apply length_filter_zero. intros j Hj. apply not_true_false. intros Hb.
  apply Hi. apply andb_true_iff in Ha as [Ha _]. apply andb_true_iff in Hb as [Hb _].
  apply mesmo_par_true in Ha, Hb. rewrite Ha, <- Hb. now apply in_map.
Qed.

Lemma map_atualizar_cancelada {B : Type} (f : inscricao -> B) (ins : list inscricao) (p e : Z) :
  (forall s i, f (com_status s i) = f i) ->
  map f (fst (atualizar_cancelada ins p e)) = map f ins.
Proof.
  intros Hf. cbn. rewrite map_map. apply map_ext. intros i.
  destruct (alvo_cancelamento p e i); [apply Hf | easy].
Qed.

Lemma map_atualizar_presente {B : Type} (f : inscricao -> B) (ins : list inscricao) (c t : string) :
  (forall t i, f (marcar_presente t i) = f i) ->
  map f (fst (atualizar_presente ins c t)) = map f ins.
Proof.
  intros Hf. cbn. rewrite map_map. apply map_ext. intros i.
  destruct (alvo_checkin c i); [apply Hf | easy].
Qed.

(** ** The waiting list *)

Lemma max_posicao_cota (les : list espera) (e : Z) (l : espera) :
  In l les -> le_evento_id l = e ->
  exists m, max_posicao les e = Some m /\ le_posicao l <= m.
Proof.
  induction les as [|x les IH]; cbn [In max_posicao]; [easy|].
  intros [->|Hin] He.
  - rewrite He, Z.eqb_refl. destruct (max_posicao les e) as [m|]; eexists; split; try reflexivity; lia.
  - destruct (IH Hin He) as (m & -> & Hm).
    destruct (le_evento_id x =? e); eexists; split; try reflexivity; lia.
Qed.

Lemma max_posicao_None (les : list espera) (e : Z) :
  max_posicao les e = None <-> forall l, In l les -> le_evento_id l <> e.
Proof.
  split.
  - intros Hmax l Hin He. destruct (max_posicao_cota les e l Hin He) as (m & Hm & _). congruence.
  - induction les as [|x les IH]; cbn [max_posicao]; [easy|]. intros H.
    destruct (Z.eqb_spec (le_evento_id x) e) as [He|He].
    + exfalso. apply (H x); [now left | easy].
    + apply IH. intros l Hin. apply H. now right.
Qed.

Lemma max_posicao_atingido (les : list espera) (e m : Z) :
  max_posicao les e = Some m ->
  exists l, In l les /\ le_evento_id l = e /\ le_posicao l = m.
Proof.
  revert m. induction les as [|x les IH]; cbn [max_posicao]; [easy|]. intros m.
  destruct (Z.eqb_spec (le_evento_id x) e) as [He|He].
  - destruct (max_posicao les e) as [m'|].
    + intros [= <-]. destruct (Z.max_spec (le_posicao x) m') as [[_ ->]|[_ ->]].
      * destruct (IH m' eq_refl) as (l & Hin & Hl). exists l. split; [now right | easy].
      * exists x. split; [now left | easy].
    + intros [= <-]. exists x. split; [now left | easy].
  - intros Hm. destruct (IH m Hm) as (l & Hin & Hl). exists l. split; [now right | easy].
Qed.

Lemma proxima_posicao_nova (les : list espera) (e : Z) :
  ~ In (e, proxima_posicao les e) (map chave_posicao les).
Proof.
  rewrite in_map_iff. intros (l & Hk & Hin). unfold chave_posicao in Hk.
  injection Hk as He Hp.
  destruct (max_posicao_cota les e l Hin He) as (m & Hm & Hle).
  unfold proxima_posicao in Hp. rewrite Hm in Hp. lia.
Qed.

Lemma inserir_espera_Some (les novas : list espera) (p e pos : Z) (t : string) :
  inserir_espera les p e pos t = Some novas ->
  novas = les ++ [mk_espera (proximo_id (map le_id les)) p e pos t false].
Proof.
  unfold inserir_espera. destruct (existsb _ les); [easy|]. now intros [= <-].
Qed.

(** ** Every call keeps the store consistent *)

Lemma consistente_vazio : consistente banco_vazio.
Proof. split; cbn; try constructor; easy. Qed.

Lemma consistente_criar_evento (db : banco) (c : Z) :
  consistente db -> consistente (banco_final (criar_evento db c)).
Proof.
  intros Hcs. destruct (criar_evento_casos db c) as [[_ ->]|[_ ->]]; [|exact Hcs].
  destruct Hcs as [Hev Hpar Hcod Href Hcont Hpos].
  split; cbn [banco_final eventos inscricoes lista_espera]; try easy.
  - rewrite map_app. apply NoDup_snoc; [easy | apply proximo_id_novo].
  - rewrite map_app. intros x Hx. apply in_or_app. left. now apply Href.
  - intros ev [Hin|[<-|[]]]%in_app_or; [now apply Hcont|].
    unfold confirmed_count. cbn [ev_id ev_capacidade_maxima ev_vagas_disponiveis].
    rewrite ativas_zero; [lia|].
    intros Hx. apply Href in Hx. now apply proximo_id_novo in Hx.
Qed.

Lemma consistente_inscrever_participante (db : banco) (c t : string) (p e : Z) :
  consistente db -> consistente (banco_final (inscrever_participante db c t p e)).
Proof.
  intros Hcs.
  destruct (inscrever_participante_casos db c t p e)
    as [[_ ->]|[(v & _ & _ & ->)|[(v & _ & _ & _ & ->)|(v & novas & id & Hsel & Hv & Hins & ->)]]];
    try exact Hcs.
  destruct Hcs as [Hev Hpar Hcod Href Hcont Hpos].
  apply inserir_inscricao_Some in Hins as (Hnp & Hnc & -> & ->).
  split; cbn [banco_final eventos inscricoes lista_espera]; try easy.
  - now rewrite ids_atualizar_vagas.
  - rewrite map_app. now apply NoDup_snoc.
  - rewrite map_app. now apply NoDup_snoc.
  - rewrite ids_atualizar_vagas, map_app. intros x [Hx|[<-|[]]]%in_app_or; [now apply Href|].
    cbn. apply selecionar_vagas_Some in Hsel as (ev & Hin & <- & _). now apply in_map.
  - intros ev' (ev & Hin & Hid & Hcap & Hvag)%In_atualizar_vagas.
    specialize (Hcont ev Hin). unfold confirmed_count in *.
    rewrite Hid, Hcap, Hvag, ativas_snoc. cbn [in_evento_id ocupa_vaga in_status status_eqb negb].
    rewrite andb_true_r, (Z.eqb_sym e). destruct (ev_id ev =? e); lia.
Qed.

Lemma consistente_adicionar_lista_espera (db : banco) (t : string) (p e : Z) :
  consistente db -> consistente (banco_final (adicionar_lista_espera db t p e)).
Proof.
  intros Hcs. unfold adicionar_lista_espera.
  destruct (inserir_espera _ p e _ t) as [novas|] eqn:Hins; [|exact Hcs].
  apply inserir_espera_Some in Hins as ->.
  destruct Hcs as [Hev Hpar Hcod Href Hcont Hpos].
  split; cbn [banco_final eventos inscricoes lista_espera]; try easy.
  rewrite map_app. apply NoDup_snoc; [easy | apply proxima_posicao_nova].
Qed.

Lemma consistente_cancelar_inscricao (db : banco) (p e : Z) :
  consistente db -> consistente (banco_final (cancelar_inscricao db p e)).
Proof.
  intros Hcs.
  destruct (cancelar_inscricao_casos db p e) as [[_ ->]|[Hrow ->]]; [exact Hcs|].
  destruct Hcs as [Hev Hpar Hcod Href Hcont Hpos].
  pose proof (rowcount_cancelada_le_1 (inscricoes db) p e Hpar) as Hle.
  split; cbn [banco_final eventos inscricoes lista_espera]; try easy.
  - now rewrite ids_atualizar_vagas.
  - now rewrite map_atualizar_cancelada.
  - now rewrite map_atualizar_cancelada.
  - now rewrite ids_atualizar_vagas, map_atualizar_cancelada.
  - intros ev' (ev & Hin & Hid & Hcap & Hvag)%In_atualizar_vagas.
    specialize (Hcont ev Hin). unfold confirmed_count in *.
    pose proof (ativas_cancelada (inscricoes db) p e (ev_id ev)) as Hat.
    rewrite Hid, Hcap, Hvag. rewrite (Z.eqb_sym e) in Hat.
    destruct (ev_id ev =? e); lia.
Qed.

Lemma consistente_realizar_checkin (db : banco) (c t : string) :
  consistente db -> consistente (banco_final (realizar_checkin db c t)).
Proof.
  intros Hcs.
  destruct (realizar_checkin_casos db c t) as [[_ ->]|[Hrow ->]]; [exact Hcs|].
  destruct Hcs as [Hev Hpar Hcod Href Hcont Hpos].
  split; cbn [banco_final eventos inscricoes lista_espera]; try easy.
  - now rewrite map_atualizar_presente.
  - now rewrite map_atualizar_presente.
  - now rewrite map_atualizar_presente.
  - intros ev Hin. rewrite ativas_presente. now apply Hcont.
Qed.

Lemma consistente_executar (db : banco) (o : operacao) :
  consistente db -> consistente (executar db o).
Proof.
  destruct o; cbn [executar].
  - apply consistente_criar_evento.
  - apply consistente_inscrever_participante.
  - apply consistente_adicionar_lista_espera.
  - apply consistente_cancelar_inscricao.
  - apply consistente_realizar_checkin.
Qed.

(** Induction over the calls made so far, the last call last. *)
Lemma executar_todas_ind (ok : operacao -> Prop) (P : banco -> Prop) :
  P banco_vazio ->
  (forall db o, ok o -> P db -> P (executar db o)) ->
  forall ops, Forall ok ops -> P (executar_todas banco_vazio ops).
Proof.
  intros H0 Hstep ops. induction ops as [|o ops IH] using rev_ind; intros Hok; [exact H0|].
  unfold executar_todas. rewrite fold_left_app. cbn [fold_left].
  apply Forall_app in Hok as [Hops Ho]. inversion Ho; subst.
  apply Hstep; [easy | now apply IH].
Qed.

Lemma Forall_True {A : Type} (l : list A) : Forall (fun _ => True) l.
Proof. induction l; constructor; easy. Qed.

Lemma alcancavel_ind (P : banco -> Prop) :
  P banco_vazio ->
  (forall db o, P db -> P (executar db o)) ->
  forall db, alcancavel db -> P db.
Proof.
  intros H0 Hstep db [ops ->].
  apply (executar_todas_ind (fun _ => True)); auto using Forall_True.
Qed.

Lemma alcancavel_executar (db : banco) (o : operacao) :
  alcancavel db -> alcancavel (executar db o).
Proof.
  intros [ops ->]. exists (ops ++ [o]). unfold executar_todas. now rewrite fold_left_app.
Qed.

Lemma alcancavel_consistente (db : banco) : alcancavel db -> consistente db.
Proof.
  apply alcancavel_ind; [apply consistente_vazio | intros; now apply consistente_executar].
Qed.

(** ** Slots never run below zero *)

Lemma vagas_nao_negativas_executar (db : banco) (o : operacao) :
  capacidade_valida o -> consistente db ->
  vagas_nao_negativas db -> vagas_nao_negativas (executar db o).
Proof.
  intros Hcap Hcs Hvn. destruct o as [c|c t p e|t p e|p e|c t]; cbn [executar].
  - destruct (criar_evento_casos db c) as [[_ ->]|[_ ->]]; [|exact Hvn].
    intros ev [Hin|[<-|[]]]%in_app_or; [now apply Hvn | exact Hcap].
  - destruct (inscrever_participante_casos db c t p e)
      as [[_ ->]|[(v & _ & _ & ->)|[(v & _ & _ & _ & ->)|(v & novas & id & Hsel & Hv & _ & ->)]]];
      try exact Hvn.
    intros ev' (ev & Hin & Hid & _ & Hvag)%In_atualizar_vagas.
    specialize (Hvn ev Hin). destruct (Z.eqb_spec (ev_id ev) e) as [He|He]; [|lia].
    pose proof (selecionar_vagas_unico (eventos db) ev (cs_eventos db Hcs) Hin) as Hu.
    rewrite He, Hsel in Hu. injection Hu as Hu. lia.
  - unfold adicionar_lista_espera. now destruct (inserir_espera _ p e _ t).
  - destruct (cancelar_inscricao_casos db p e) as [[_ ->]|[_ ->]]; [exact Hvn|].
    intros ev' (ev & Hin & _ & _ & Hvag)%In_atualizar_vagas.
    specialize (Hvn ev Hin). destruct (ev_id ev =? e); lia.
  - destruct (realizar_checkin_casos db c t) as [[_ ->]|[_ ->]]; exact Hvn.
Qed.

(** C1: after any sequence of event creations (with a capacity that is not
    negative), enrollments, cancellations, waiting-list joins and check-ins,
    every event has [0 <= confirmed_count <= capacidade_maxima], its
    [confirmed_count] is the number of its enrollments in state
    [confirmada] or [presente], and [vagas_disponiveis] is
    [capacidade_maxima] minus that number and is not negative. *)
Theorem contagem_de_vagas_invariante (ops : list operacao) (ev : evento) :
  Forall capacidade_valida ops ->
  In ev (eventos (executar_todas banco_vazio ops)) ->
  0 <= confirmed_count ev <= ev_capacidade_maxima ev
  /\ confirmed_count ev =
     Z.of_nat (inscricoes_ativas (inscricoes (executar_todas banco_vazio ops)) (ev_id ev))
  /\ ev_vagas_disponiveis ev =
     ev_capacidade_maxima ev
     - Z.of_nat (inscricoes_ativas (inscricoes (executar_todas banco_vazio ops)) (ev_id ev))
  /\ 0 <= ev_vagas_disponiveis ev.
Proof.
  intros Hok Hin.
  assert (H : consistente (executar_todas banco_vazio ops)
              /\ vagas_nao_negativas (executar_todas banco_vazio ops)).
  { apply (executar_todas_ind capacidade_valida); [| |exact Hok].
    - split; [apply consistente_vazio | intros ? []].
    - intros db o Ho [Hcs Hvn]. split.
      + now apply consistente_executar.
      + now apply vagas_nao_negativas_executar. }
  destruct H as [Hcs Hvn].
  pose proof (cs_contagem _ Hcs ev Hin) as Hc. pose proof (Hvn ev Hin) as Hv.
  unfold confirmed_count in *. lia.
Qed.

(** ** What a cancellation changes *)

Lemma buscar_evento_atualizar_vagas (evs : list evento) (e d e' : Z) :
  buscar_evento (atualizar_vagas evs e d) e' =
  option_map (fun ev => if ev_id ev =? e
                        then mk_evento (ev_id ev) (ev_capacidade_maxima ev)
                                       (ev_vagas_disponiveis ev + d)
                        else ev)
             (buscar_evento evs e').
Proof.
  unfold buscar_evento, atualizar_vagas.
  induction evs as [|ev evs IH]; [easy|]. cbn [map find].
  assert (Hid : ev_id (if ev_id ev =? e
                       then mk_evento (ev_id ev) (ev_capacidade_maxima ev)
                                      (ev_vagas_disponiveis ev + d)
                       else ev) = ev_id ev) by now destruct (ev_id ev =? e).
  rewrite Hid. now destruct (ev_id ev =? e').
Qed.

Lemma buscar_evento_Some (evs : list evento) (e : Z) (ev : evento) :
  buscar_evento evs e = Some ev -> In ev evs /\ ev_id ev = e.
Proof.
  unfold buscar_evento. intros Hf. apply find_some in Hf as [Hin Hid].
  split; [easy | lia].
Qed.

Lemma buscar_evento_existe (evs : list evento) (e : Z) :
  In e (map ev_id evs) -> exists ev, buscar_evento evs e = Some ev.
Proof.
  intros Hin. destruct (buscar_evento evs e) as [ev|] eqn:Hb; [now exists ev|].
  exfalso. revert Hin. apply selecionar_vagas_None.
  unfold selecionar_vagas. now rewrite Hb.
Qed.

Lemma Forall2_map_r {A B : Type} (R : A -> B -> Prop) (f : A -> B) (l : list A) :
  (forall a, In a l -> R a (f a)) -> Forall2 R l (map f l).
Proof.
  induction l as [|x l IH]; cbn [map]; intros H; constructor.
  - apply H. now left.
  - apply IH. intros a Ha. apply H. now right.
Qed.

(** C8: cancelling a confirmed enrollment of a reachable store succeeds,
    raises [vagas_disponiveis] of its event by exactly one and sets the
    enrollment's state to [cancelada], its other columns staying as they
    were; every other enrollment row, every other event row and the
    waiting list are as before. *)
Theorem cancelar_inscricao_libera_uma_vaga (db : banco) (i : inscricao) :
  alcancavel db ->
  In i (inscricoes db) ->
  in_status i = Confirmada ->
  retorno (cancelar_inscricao db (in_participante_id i) (in_evento_id i)) = true
  /\ impresso (cancelar_inscricao db (in_participante_id i) (in_evento_id i))
     = MsgInscricaoCancelada
  /\ (exists ev,
        buscar_evento (eventos db) (in_evento_id i) = Some ev
        /\ buscar_evento
             (eventos (banco_final (cancelar_inscricao db (in_participante_id i) (in_evento_id i))))
             (in_evento_id i)
           = Some (mk_evento (ev_id ev) (ev_capacidade_maxima ev) (ev_vagas_disponiveis ev + 1)))
  /\ (forall e', e' <> in_evento_id i ->
        buscar_evento
          (eventos (banco_final (cancelar_inscricao db (in_participante_id i) (in_evento_id i)))) e'
        = buscar_evento (eventos db) e')
  /\ Forall2 (fun j j' =>
                (j = i
                 /\ in_status j' = Cancelada
                 /\ j' = mk_inscricao (in_id i) (in_participante_id i) (in_evento_id i)
                                      (in_data_inscricao i) Cancelada
                                      (in_codigo_confirmacao i) (in_presente i)
                                      (in_data_checkin i))
                \/ (j <> i /\ j' = j))
       (inscricoes db)
       (inscricoes (banco_final (cancelar_inscricao db (in_participante_id i) (in_evento_id i))))
  /\ lista_espera (banco_final (cancelar_inscricao db (in_participante_id i) (in_evento_id i)))
     = lista_espera db.
Proof.
  intros Halc Hin Hs. apply alcancavel_consistente in Halc as Hcs.
  set (p := in_participante_id i). set (e := in_evento_id i).
  assert (Hi : alvo_cancelamento p e i = true) by now apply alvo_cancelamento_true.
  destruct (cancelar_inscricao_casos db p e) as [[Hz _]|[_ ->]].
  { rewrite length_filter_zero in Hz. rewrite (Hz i Hin) in Hi. discriminate. }
  cbn [retorno impresso banco_final eventos inscricoes lista_espera].
  split; [reflexivity|]. split; [reflexivity|]. split; [|split; [|split; [|reflexivity]]].
  - destruct (buscar_evento_existe (eventos db) e) as [ev Hev].
    { apply (cs_referencia db Hcs). now apply in_map. }
    exists ev. split; [exact Hev|].
    rewrite buscar_evento_atualizar_vagas, Hev. cbn [option_map].
    apply buscar_evento_Some in Hev as [_ ->]. now rewrite Z.eqb_refl.
  - intros e' He'. rewrite buscar_evento_atualizar_vagas.
    destruct (buscar_evento (eventos db) e') as [ev|] eqn:Hev; [|reflexivity].
    apply buscar_evento_Some in Hev as [_ Hid]. cbn [option_map].
    destruct (Z.eqb_spec (ev_id ev) e); [congruence | reflexivity].
  - apply Forall2_map_r. intros j Hj.
    destruct (alvo_cancelamento p e j) eqn:Ha.
    + left.
      assert (j = i) as ->.
      { apply (NoDup_map_inj_on par_inscricao (inscricoes db)); try easy.
        - apply (cs_pares db Hcs).
        - apply andb_true_iff in Ha as [Ha _]. apply andb_true_iff in Hi as [Hi' _].
          apply mesmo_par_true in Ha, Hi'. congruence. }
      split; [reflexivity|]. split; reflexivity.
    + right. split; [|reflexivity]. intros ->. congruence.
Qed.

(** C2, as the code has it: a cancellation promotes nobody.  Whatever the
    waiting list holds, [cancelar_inscricao] leaves it as it was and adds
    no enrollment row: the rows keep their ids, participants and codes, and
    none of them becomes [confirmada].  All it does with the freed slot is
    add it back to the counter: on success the event of the call gets one
    more in [vagas_disponiveis], on failure none does, and every event
    keeps its id and capacity. *)
Theorem cancelar_inscricao_nao_promove (db : banco) (p e : Z) :
  lista_espera (banco_final (cancelar_inscricao db p e)) = lista_espera db
  /\ map in_id (inscricoes (banco_final (cancelar_inscricao db p e)))
     = map in_id (inscricoes db)
  /\ map in_participante_id (inscricoes (banco_final (cancelar_inscricao db p e)))
     = map in_participante_id (inscricoes db)
  /\ map in_codigo_confirmacao (inscricoes (banco_final (cancelar_inscricao db p e)))
     = map in_codigo_confirmacao (inscricoes db)
  /\ (forall i, In i (inscricoes (banco_final (cancelar_inscricao db p e))) ->
                in_status i = Confirmada -> In i (inscricoes db))
  /\ Forall2 (fun ev ev' =>
                ev_id ev' = ev_id ev
                /\ ev_capacidade_maxima ev' = ev_capacidade_maxima ev
                /\ ev_vagas_disponiveis ev' =
                   ev_vagas_disponiveis ev
                   + (if retorno (cancelar_inscricao db p e) && (ev_id ev =? e)
                      then 1 else 0))
       (eventos db) (eventos (banco_final (cancelar_inscricao db p e))).
Proof.
  assert (Hmap : forall (B : Type) (f : inscricao -> B),
             (forall s i, f (com_status s i) = f i) ->
             map f (fst (atualizar_cancelada (inscricoes db) p e)) = map f (inscricoes db)).
  { intros B f Hf. cbn. rewrite map_map. apply map_ext. intros i.
    destruct (alvo_cancelamento p e i); [apply Hf | easy]. }
  destruct (cancelar_inscricao_casos db p e) as [[Hz ->]|[Hpos ->]];
    cbn [retorno banco_final eventos inscricoes lista_espera].
  - repeat (split; [easy|]). cbn [andb].
    induction (eventos db) as [|ev evs IH]; constructor; [|exact IH].
    repeat split. lia.
  - split; [reflexivity|]. repeat (split; [apply Hmap; reflexivity|]). split.
    + intros i' Hin Hs. cbn in Hin. apply in_map_iff in Hin as (i & <- & Hin).
      destruct (alvo_cancelamento p e i); [discriminate Hs | exact Hin].
    + cbn [andb]. apply Forall2_map_r. intros ev _.
      destruct (ev_id ev =? e); cbn [ev_id ev_capacidade_maxima ev_vagas_disponiveis];
        repeat split; lia.
Qed.

(** ** Joining the waiting list *)

(** C9: a successful [adicionar_lista_espera] appends one entry for the
    pair whose position is one more than the largest position among the
    event's entries, and 1 when the event has none; and in every reachable
    store no two entries of one event share a position. *)
Theorem adicionar_lista_espera_posicao (db : banco) (t : string) (p e : Z) :
  alcancavel db ->
  (retorno (adicionar_lista_espera db t p e) = true ->
   exists l,
     lista_espera (banco_final (adicionar_lista_espera db t p e)) = lista_espera db ++ [l]
     /\ le_participante_id l = p /\ le_evento_id l = e
     /\ le_posicao l = match max_posicao (lista_espera db) e with
                       | Some m => m + 1
                       | None => 1
                       end
     /\ (forall l', In l' (lista_espera db) -> le_evento_id l' = e ->
                    le_posicao l' < le_posicao l)
     /\ ((exists l', In l' (lista_espera db) /\ le_evento_id l' = e
                     /\ le_posicao l = le_posicao l' + 1)
         \/ ((forall l', In l' (lista_espera db) -> le_evento_id l' <> e)
             /\ le_posicao l = 1)))
  /\ NoDup (map chave_posicao (lista_espera db))
  /\ NoDup (map chave_posicao (lista_espera (banco_final (adicionar_lista_espera db t p e)))).
Proof.
  intros Halc. split; [|split].
  - unfold adicionar_lista_espera.
    destruct (inserir_espera _ p e _ t) as [novas|] eqn:Hins; [|discriminate].
    intros _. apply inserir_espera_Some in Hins as ->.
    cbn [banco_final lista_espera]. eexists. split; [reflexivity|].
    cbn [le_participante_id le_evento_id le_posicao]. unfold proxima_posicao.
    split; [reflexivity|]. split; [reflexivity|].
    destruct (max_posicao (lista_espera db) e) as [m|] eqn:Hmax.
    + split; [reflexivity|]. split.
      * intros l' Hin He.
        destruct (max_posicao_cota _ _ _ Hin He) as (m' & Hm' & Hle).
        rewrite Hmax in Hm'. injection Hm' as <-. lia.
      * left. destruct (max_posicao_atingido _ _ _ Hmax) as (l' & Hin & He & Hp).
        exists l'. repeat split; try easy. lia.
    + split; [reflexivity|]. rewrite max_posicao_None in Hmax. split.
      * intros l' Hin He. now apply Hmax in Hin.
      * right. easy.
  - apply (cs_posicoes db). now apply alcancavel_consistente.
  - apply (cs_posicoes _). apply alcancavel_consistente.
    now apply (alcancavel_executar db (OpListaEspera t p e)).
Qed.

(** ** Check-in happens once *)

Lemma executar_todas_inv (P : banco -> Prop) :
  (forall db o, P db -> P (executar db o)) ->
  forall ops db, P db -> P (executar_todas db ops).
Proof.
  intros Hstep ops. induction ops as [|o ops IH]; intros db Hdb; [exact Hdb|].
  cbn. apply IH. now apply Hstep.
Qed.

Lemma codigo_esgotado_executar (c : string) (db : banco) (o : operacao) :
  codigo_esgotado c db -> codigo_esgotado c (executar db o).
Proof.
  intros [Hex Hno]. destruct o as [cap|c' t p e|t p e|p e|c' t]; cbn [executar].
  - destruct (criar_evento_casos db cap) as [[_ ->]|[_ ->]]; now split.
  - destruct (inscrever_participante_casos db c' t p e)
      as [[_ ->]|[(v & _ & _ & ->)|[(v & _ & _ & _ & ->)|(v & novas & id & _ & _ & Hins & ->)]]];
      try now split.
    apply inserir_inscricao_Some in Hins as (_ & Hnc & _ & ->).
    unfold codigo_esgotado. cbn [banco_final inscricoes]. split.
    + rewrite map_app. apply in_or_app. now left.
    + intros i [Hin|[<-|[]]]%in_app_or Hc; [now apply Hno|].
      cbn in Hc. subst c'. contradiction.
  - unfold adicionar_lista_espera. destruct (inserir_espera _ p e _ t); now split.
  - destruct (cancelar_inscricao_casos db p e) as [[_ ->]|[_ ->]]; [now split|].
    unfold codigo_esgotado. cbn [banco_final inscricoes]. split.
    + now rewrite map_atualizar_cancelada.
    + intros i' (i & <- & Hin)%in_map_iff.
      destruct (alvo_cancelamento p e i); [discriminate | now apply Hno].
  - destruct (realizar_checkin_casos db c' t) as [[_ ->]|[_ ->]]; [now split|].
    unfold codigo_esgotado. cbn [banco_final inscricoes]. split.
    + now rewrite map_atualizar_presente.
    + intros i' (i & <- & Hin)%in_map_iff.
      destruct (alvo_checkin c' i); [discriminate | now apply Hno].
Qed.

(** C5: a check-in with the code of a [confirmada] enrollment succeeds,
    turns that enrollment into [presente] with [data_checkin] set to the
    current time, and touches nothing else; and from then on, whatever
    calls come in between, every check-in with the same code fails. *)
Theorem realizar_checkin_uma_vez (db : banco) (c t : string) :
  (exists i, In i (inscricoes db)
             /\ in_codigo_confirmacao i = c /\ in_status i = Confirmada) ->
  retorno (realizar_checkin db c t) = true
  /\ impresso (realizar_checkin db c t) = MsgCheckinRealizado
  /\ Forall2 (fun j j' =>
                (in_codigo_confirmacao j = c /\ in_status j = Confirmada
                 /\ j' = marcar_presente t j
                 /\ in_status j' = Presente /\ in_presente j' = true
                 /\ in_data_checkin j' = Some t)
                \/ (~ (in_codigo_confirmacao j = c /\ in_status j = Confirmada) /\ j' = j))
       (inscricoes db) (inscricoes (banco_final (realizar_checkin db c t)))
  /\ eventos (banco_final (realizar_checkin db c t)) = eventos db
  /\ lista_espera (banco_final (realizar_checkin db c t)) = lista_espera db
  /\ (forall ops t',
        realizar_checkin (executar_todas (banco_final (realizar_checkin db c t)) ops) c t'
        = mk_saida (executar_todas (banco_final (realizar_checkin db c t)) ops)
                   false MsgCodigoInvalidoOuCheckinJaRealizado).
Proof.
  intros (i & Hin & Hc & Hs).
  assert (Hi : alvo_checkin c i = true) by now apply alvo_checkin_true.
  destruct (realizar_checkin_casos db c t) as [[Hz _]|[_ ->]].
  { rewrite length_filter_zero in Hz. rewrite (Hz i Hin) in Hi. discriminate. }
  cbn [retorno impresso banco_final eventos inscricoes lista_espera].
  repeat (split; [reflexivity|]). split; [|split; [reflexivity|split; [reflexivity|]]].
  - apply Forall2_map_r. intros j Hj. destruct (alvo_checkin c j) eqn:Ha.
    + left. apply alvo_checkin_true in Ha as [Hcj Hsj]. easy.
    + right. split; [|reflexivity]. rewrite <- alvo_checkin_true. congruence.
  - intros ops t'. apply realizar_checkin_sem_alvo.
    apply (executar_todas_inv (codigo_esgotado c)).
    + intros db' o. apply codigo_esgotado_executar.
    + unfold codigo_esgotado. cbn [inscricoes]. split.
      * rewrite map_atualizar_presente by reflexivity. rewrite <- Hc. now apply in_map.
      * intros j' (j & <- & Hj)%in_map_iff.
        destruct (alvo_checkin c j) eqn:Ha; [discriminate|].
        intros Hcj Hsj. rewrite <- not_true_iff_false in Ha. apply Ha.
        now apply alvo_checkin_true.
Qed.

(** ** When enrolling is refused as a duplicate *)

(** C3, as the code has it: [inscrever_participante] takes its
    already-enrolled exit exactly when the event exists, still has a slot,
    and the INSERT breaks a UNIQUE constraint: a row for the pair exists in
    any state ([confirmada], [presente] or [cancelada]), or the code is in
    use.  So a pair whose only enrollment is cancelled is refused too; and
    right after a successful enrollment a second call for the pair is
    refused as a duplicate if a slot remains, and sent to the waiting list
    if the first took the last one. *)
Theorem inscrever_participante_conflito (db : banco) (c t : string) (p e : Z) :
  (inscrever_participante db c t p e = mk_saida db RetNone MsgJaInscrito
   <-> exists v, selecionar_vagas (eventos db) e = Some v /\ 0 < v
                 /\ (In (p, e) (map par_inscricao (inscricoes db))
                     \/ In c (map in_codigo_confirmacao (inscricoes db))))
  /\ (forall i v, In i (inscricoes db) -> par_inscricao i = (p, e) ->
                  selecionar_vagas (eventos db) e = Some v -> 0 < v ->
                  inscrever_participante db c t p e = mk_saida db RetNone MsgJaInscrito)
  /\ (forall id c2 t2,
        retorno (inscrever_participante db c t p e) = RetId id ->
        exists v,
          selecionar_vagas (eventos db) e = Some v
          /\ selecionar_vagas (eventos (banco_final (inscrever_participante db c t p e))) e
             = Some (v - 1)
          /\ inscrever_participante (banco_final (inscrever_participante db c t p e)) c2 t2 p e
             = if 1 <? v
               then mk_saida (banco_final (inscrever_participante db c t p e))
                             RetNone MsgJaInscrito
               else mk_saida (banco_final (inscrever_participante db c t p e))
                             RetListaEspera MsgSemVagas).
Proof.
  assert (Hiff : inscrever_participante db c t p e = mk_saida db RetNone MsgJaInscrito
   <-> exists v, selecionar_vagas (eventos db) e = Some v /\ 0 < v
                 /\ (In (p, e) (map par_inscricao (inscricoes db))
                     \/ In c (map in_codigo_confirmacao (inscricoes db)))).
  { split.
    - destruct (inscrever_participante_casos db c t p e)
        as [[_ ->]|[(v & _ & _ & ->)|[(v & Hsel & Hv & Hins & _)|(v & novas & id & _ & _ & _ & ->)]]];
        try discriminate.
      intros _. exists v. apply inserir_inscricao_None in Hins. easy.
    - intros (v & Hsel & Hv & Hdup). unfold inscrever_participante. rewrite Hsel.
      destruct (Z.leb_spec v 0); [lia|].
      apply (inserir_inscricao_None _ p e c t) in Hdup. now rewrite Hdup. }
  split; [exact Hiff|]. split.
  - intros i v Hin Hpar Hsel Hv. apply Hiff. exists v. repeat split; try easy.
    left. rewrite <- Hpar. now apply in_map.
  - intros id c2 t2.
    destruct (inscrever_participante_casos db c t p e)
      as [[_ ->]|[(v & _ & _ & ->)|[(v & _ & _ & _ & ->)|(v & novas & id' & Hsel & Hv & Hins & ->)]]];
      try discriminate.
    intros _. exists v. cbn [banco_final eventos]. split; [exact Hsel|].
    assert (Hsel' : selecionar_vagas (atualizar_vagas (eventos db) e (-1)) e = Some (v - 1)).
    { unfold selecionar_vagas in *. rewrite buscar_evento_atualizar_vagas.
      destruct (buscar_evento (eventos db) e) as [ev|] eqn:Hev; [|discriminate].
      apply buscar_evento_Some in Hev as [_ Hid]. cbn [option_map] in *.
      injection Hsel as <-. rewrite Hid, Z.eqb_refl. cbn; f_equal; lia. }
    split; [exact Hsel'|].
    unfold inscrever_participante at 1. cbn [eventos inscricoes]. rewrite Hsel'.
    destruct (Z.leb_spec (v - 1) 0), (Z.ltb_spec 1 v); try lia; [reflexivity|].
    apply inserir_inscricao_Some in Hins as (_ & _ & _ & ->).
    assert (Hdup : inserir_inscricao
              (inscricoes db ++ [mk_inscricao id' p e t Confirmada c false None]) p e c2 t2 = None).
    { apply inserir_inscricao_None. left. rewrite map_app. apply in_or_app. right. now left. }
    now rewrite Hdup.
Qed.

End Statements.

(** ** The claims on the scenarios *)

Section Scenarios.

(** The counters after two enrollments, one refusal, one cancellation and one
    check-in on an event of capacity 2. *)
Lemma contagem_de_vagas_invariante_witness :
  let ops := [OpCriarEvento 2;
              OpInscrever "A1B2C3D4E5" instante 1 1;
              OpInscrever "F6G7H8I9J0" instante 2 1;
              OpInscrever "K1L2M3N4O5" instante 3 1;
              OpCancelar 1 1;
              OpCheckin "F6G7H8I9J0" instante] in
  let ev := mk_evento 1 2 1 in
  Forall capacidade_valida ops
  /\ In ev (eventos (executar_todas banco_vazio ops))
  /\ 0 <= confirmed_count ev <= ev_capacidade_maxima ev
  /\ confirmed_count ev =
     Z.of_nat (inscricoes_ativas (inscricoes (executar_todas banco_vazio ops)) (ev_id ev))
  /\ ev_vagas_disponiveis ev =
     ev_capacidade_maxima ev
     - Z.of_nat (inscricoes_ativas (inscricoes (executar_todas banco_vazio ops)) (ev_id ev))
  /\ 0 <= ev_vagas_disponiveis ev.
Proof.
  intros ops ev.
  assert (Hok : Forall capacidade_valida ops)
    by (repeat constructor; cbn; lia).
  assert (Hin : In ev (eventos (executar_todas banco_vazio ops)))
    by (left; reflexivity).
  split; [exact Hok|]. split; [exact Hin|].
  exact (contagem_de_vagas_invariante ops ev Hok Hin).
Defined.

(** Participant 4 asks for the full event. *)
Lemma inscrever_participante_sem_vagas_witness :
  selecionar_vagas (eventos cenario_lotado) 1 = Some 0
  /\ retorno (inscrever_participante cenario_lotado "P6Q7R8S9T0" instante 4 1) = RetListaEspera
  /\ impresso (inscrever_participante cenario_lotado "P6Q7R8S9T0" instante 4 1) = MsgSemVagas
  /\ inscricoes (banco_final (inscrever_participante cenario_lotado "P6Q7R8S9T0" instante 4 1))
     = inscricoes cenario_lotado
  /\ eventos (banco_final (inscrever_participante cenario_lotado "P6Q7R8S9T0" instante 4 1))
     = eventos cenario_lotado
  /\ banco_final (inscrever_participante cenario_lotado "P6Q7R8S9T0" instante 4 1)
     = cenario_lotado.
Proof.
  split; [reflexivity|].
  apply (inscrever_participante_sem_vagas cenario_lotado "P6Q7R8S9T0" instante 4 1 0);
    [reflexivity | lia].
Defined.

(** The four ways of failing, each leaving its store as it was. *)
Lemma inscrever_participante_falha_atomica_witness :
  (* event not found *)
  banco_final (inscrever_participante cenario_lotado "P6Q7R8S9T0" instante 4 99) = cenario_lotado
  (* no slot left *)
  /\ banco_final (inscrever_participante cenario_lotado "P6Q7R8S9T0" instante 4 1) = cenario_lotado
  (* the pair has a row already *)
  /\ banco_final (inscrever_participante cenario_cancelado "P6Q7R8S9T0" instante 1 1)
     = cenario_cancelado
  (* the code is in use *)
  /\ banco_final (inscrever_participante cenario_cancelado "A1B2C3D4E5" instante 4 1)
     = cenario_cancelado.
Proof.
  split; [|split; [|split]].
  - apply (inscrever_participante_falha_atomica cenario_lotado "P6Q7R8S9T0" instante 4 99).
    left. reflexivity.
  - apply (inscrever_participante_falha_atomica cenario_lotado "P6Q7R8S9T0" instante 4 1).
    right. reflexivity.
  - apply (inscrever_participante_falha_atomica cenario_cancelado "P6Q7R8S9T0" instante 1 1).
    left. reflexivity.
  - apply (inscrever_participante_falha_atomica cenario_cancelado "A1B2C3D4E5" instante 4 1).
    left. reflexivity.
Defined.

(** Cancelling twice: the second call finds nothing to cancel. *)
Lemma cancelar_inscricao_sem_confirmada_witness :
  map (fun i => (par_inscricao i, in_status i)) (inscricoes cenario_cancelado)
  = [((1, 1), Cancelada)]
  /\ retorno (cancelar_inscricao cenario_cancelado 1 1) = false
  /\ impresso (cancelar_inscricao cenario_cancelado 1 1) = MsgInscricaoNaoEncontradaOuJaCancelada
  /\ banco_final (cancelar_inscricao cenario_cancelado 1 1) = cenario_cancelado.
Proof.
  split; [reflexivity|].
  apply (cancelar_inscricao_sem_confirmada cenario_cancelado 1 1).
  intros i [<-|[]] _ _. discriminate.
Defined.

(** The code of an enrollment that is already [presente]. *)
Lemma realizar_checkin_falha_unica_witness :
  map (fun i => (in_codigo_confirmacao i, in_status i)) (inscricoes cenario_checkin)
  = [("A1B2C3D4E5"%string, Presente); ("F6G7H8I9J0"%string, Cancelada)]
  /\ realizar_checkin cenario_checkin "A1B2C3D4E5" instante
     = mk_saida cenario_checkin false MsgCodigoInvalidoOuCheckinJaRealizado.
Proof.
  split; [reflexivity|].
  apply (realizar_checkin_falha_unica cenario_checkin "A1B2C3D4E5" instante).
  right. left. intros i [<-|[<-|[]]] Hc; [reflexivity | discriminate Hc].
Defined.

(** Participant 1 leaves the full event. *)
Lemma cancelar_inscricao_libera_uma_vaga_witness :
  let db := cenario_lotado in
  let i := mk_inscricao 1 1 1 instante Confirmada "A1B2C3D4E5" false None in
  alcancavel db
  /\ In i (inscricoes db)
  /\ map in_status (inscricoes (banco_final (cancelar_inscricao db 1 1)))
     = [Cancelada; Confirmada]
  /\ retorno (cancelar_inscricao db 1 1) = true
  /\ impresso (cancelar_inscricao db 1 1) = MsgInscricaoCancelada
  /\ (exists ev,
        buscar_evento (eventos db) 1 = Some ev
        /\ buscar_evento (eventos (banco_final (cancelar_inscricao db 1 1))) 1
           = Some (mk_evento (ev_id ev) (ev_capacidade_maxima ev) (ev_vagas_disponiveis ev + 1)))
  /\ (forall e', e' <> 1 ->
        buscar_evento (eventos (banco_final (cancelar_inscricao db 1 1))) e'
        = buscar_evento (eventos db) e')
  /\ Forall2 (fun j j' =>
                (j = i
                 /\ in_status j' = Cancelada
                 /\ j' = mk_inscricao 1 1 1 instante Cancelada "A1B2C3D4E5" false None)
                \/ (j <> i /\ j' = j))
       (inscricoes db) (inscricoes (banco_final (cancelar_inscricao db 1 1)))
  /\ lista_espera (banco_final (cancelar_inscricao db 1 1)) = lista_espera db.
Proof.
  intros db i.
  assert (Halc : alcancavel db) by (eexists; reflexivity).
  assert (Hin : In i (inscricoes db)) by (left; reflexivity).
  split; [exact Halc|]. split; [exact Hin|]. split; [reflexivity|].
  exact (cancelar_inscricao_libera_uma_vaga db i Halc Hin eq_refl).
Defined.

(** Participant 4 joins the waiting list behind participant 3. *)
Lemma adicionar_lista_espera_posicao_witness :
  let db := cenario_lotado in
  alcancavel db
  /\ retorno (adicionar_lista_espera db instante 4 1) = true
  /\ map le_posicao (lista_espera db) = [1]
  /\ map le_posicao (lista_espera (banco_final (adicionar_lista_espera db instante 4 1)))
     = [1; 2]
  /\ (exists l,
        lista_espera (banco_final (adicionar_lista_espera db instante 4 1))
        = lista_espera db ++ [l]
        /\ le_participante_id l = 4 /\ le_posicao l = 2)
  /\ NoDup (map chave_posicao (lista_espera db))
  /\ NoDup (map chave_posicao (lista_espera (banco_final (adicionar_lista_espera db instante 4 1)))).
Proof.
  intros db.
  assert (Halc : alcancavel db) by (eexists; reflexivity).
  split; [exact Halc|]. split; [reflexivity|]. split; [reflexivity|]. split; [reflexivity|].
  split; [|exact (proj2 (adicionar_lista_espera_posicao db instante 4 1 Halc))].
  destruct (proj1 (adicionar_lista_espera_posicao db instante 4 1 Halc) eq_refl)
    as (l & Hnovas & Hp & _ & Hpos & _).
  exists l. split; [exact Hnovas | split; [exact Hp | exact Hpos]].
Defined.

(** Participant 1 checks in; the code is then spent. *)
Lemma realizar_checkin_uma_vez_witness :
  let db := cenario_lotado in
  let c := "A1B2C3D4E5"%string in
  (exists i, In i (inscricoes db) /\ in_codigo_confirmacao i = c /\ in_status i = Confirmada)
  /\ retorno (realizar_checkin db c instante) = true
  /\ map (fun i => (in_participante_id i, in_status i, in_data_checkin i))
         (inscricoes (banco_final (realizar_checkin db c instante)))
     = [(1, Presente, Some instante); (2, Confirmada, None)]
  /\ (forall ops t',
        realizar_checkin (executar_todas (banco_final (realizar_checkin db c instante)) ops) c t'
        = mk_saida (executar_todas (banco_final (realizar_checkin db c instante)) ops)
                   false MsgCodigoInvalidoOuCheckinJaRealizado).
Proof.
  intros db c.
  assert (Hex : exists i, In i (inscricoes db)
                          /\ in_codigo_confirmacao i = c /\ in_status i = Confirmada).
  { exists (mk_inscricao 1 1 1 instante Confirmada c false None).
    split; [left; reflexivity | split; reflexivity]. }
  split; [exact Hex|]. split; [reflexivity|]. split; [reflexivity|].
  exact (proj2 (proj2 (proj2 (proj2 (proj2 (realizar_checkin_uma_vez db c instante Hex)))))).
Defined.

(** C2 fails on the code: with participant 3 waiting for the full event,
    cancelling participant 1 succeeds and frees the slot, yet the waiting
    list still holds participant 3 and no enrollment was made for them. *)
Lemma cancelar_inscricao_promove_contraexemplo :
  map (fun i => (in_participante_id i, in_evento_id i, in_status i)) (inscricoes cenario_lotado)
  = [(1, 1, Confirmada); (2, 1, Confirmada)]
  /\ map (fun l => (le_participante_id l, le_evento_id l, le_posicao l)) (lista_espera cenario_lotado)
     = [(3, 1, 1)]
  /\ retorno (cancelar_inscricao cenario_lotado 1 1) = true
  /\ map (fun l => (le_participante_id l, le_evento_id l, le_posicao l))
         (lista_espera (banco_final (cancelar_inscricao cenario_lotado 1 1)))
     = [(3, 1, 1)]
  /\ map (fun i => (in_participante_id i, in_evento_id i, in_status i))
         (inscricoes (banco_final (cancelar_inscricao cenario_lotado 1 1)))
     = [(1, 1, Cancelada); (2, 1, Confirmada)]
  /\ selecionar_vagas (eventos (banco_final (cancelar_inscricao cenario_lotado 1 1))) 1 = Some 1.
Proof. repeat (split; [reflexivity|]). reflexivity. Qed.

(** C3 fails on the code, twice.  A pair whose only enrollment is cancelled
    is refused as already enrolled, though the event has slots and the
    code is new; and the second of two consecutive calls for a pair, when
    the first took the last slot, is not refused as a duplicate but sent
    to the waiting list. *)
Lemma inscrever_participante_conflito_contraexemplo :
  (map (fun i => (par_inscricao i, in_status i)) (inscricoes cenario_cancelado)
   = [((1, 1), Cancelada)]
   /\ selecionar_vagas (eventos cenario_cancelado) 1 = Some 2
   /\ codigo_gerado "F6G7H8I9J0" = true
   /\ inscrever_participante cenario_cancelado "F6G7H8I9J0" instante 1 1
      = mk_saida cenario_cancelado RetNone MsgJaInscrito)
  /\ (retorno (inscrever_participante cenario_ultima_vaga "A1B2C3D4E5" instante 1 1) = RetId 1
      /\ map (fun i => (par_inscricao i, in_status i))
             (inscricoes (banco_final
                (inscrever_participante cenario_ultima_vaga "A1B2C3D4E5" instante 1 1)))
         = [((1, 1), Confirmada)]
      /\ retorno (inscrever_participante
                    (banco_final
                       (inscrever_participante cenario_ultima_vaga "A1B2C3D4E5" instante 1 1))
                    "F6G7H8I9J0" instante 1 1)
         = RetListaEspera
      /\ impresso (inscrever_participante
                     (banco_final
                        (inscrever_participante cenario_ultima_vaga "A1B2C3D4E5" instante 1 1))
                     "F6G7H8I9J0" instante 1 1)
         = MsgSemVagas).
Proof. split; repeat (split; [reflexivity|]); reflexivity. Qed.

(** C6 fails on the code: a code no enrollment carries, the code of an
    enrollment already checked in and the code of a cancelled enrollment
    get one and the same answer from [realizar_checkin]. *)
Lemma realizar_checkin_causas_contraexemplo :
  map (fun i => (in_codigo_confirmacao i, in_status i)) (inscricoes cenario_checkin)
  = [("A1B2C3D4E5"%string, Presente); ("F6G7H8I9J0"%string, Cancelada)]
  /\ realizar_checkin cenario_checkin "Z9Z9Z9Z9Z9" instante
     = realizar_checkin cenario_checkin "A1B2C3D4E5" instante
  /\ realizar_checkin cenario_checkin "A1B2C3D4E5" instante
     = realizar_checkin cenario_checkin "F6G7H8I9J0" instante
  /\ realizar_checkin cenario_checkin "F6G7H8I9J0" instante
     = mk_saida cenario_checkin false MsgCodigoInvalidoOuCheckinJaRealizado.
Proof. repeat (split; [reflexivity|]). reflexivity. Qed.

(** The calls of the scenario and what each returns: two enrollments, a
    refusal for want of slots, a waiting-list entry at position 1, a
    cancellation. *)
Example cenario_lotado_retornos :
  let db0 := banco_final (criar_evento banco_vazio 2) in
  let r1 := inscrever_participante db0 "A1B2C3D4E5" instante 1 1 in
  let r2 := inscrever_participante (banco_final r1) "F6G7H8I9J0" instante 2 1 in
  let r3 := inscrever_participante (banco_final r2) "K1L2M3N4O5" instante 3 1 in
  let r4 := adicionar_lista_espera (banco_final r3) instante 3 1 in
  let r5 := cancelar_inscricao (banco_final r4) 1 1 in
  retorno (criar_evento banco_vazio 2) = Some 1
  /\ retorno r1 = RetId 1 /\ selecionar_vagas (eventos (banco_final r1)) 1 = Some 1
  /\ retorno r2 = RetId 2 /\ selecionar_vagas (eventos (banco_final r2)) 1 = Some 0
  /\ retorno r3 = RetListaEspera /\ banco_final r3 = banco_final r2
  /\ retorno r4 = true /\ impresso r4 = MsgAdicionadoListaEspera 1
  /\ banco_final r4 = cenario_lotado
  /\ retorno r5 = true /\ selecionar_vagas (eventos (banco_final r5)) 1 = Some 1.
Proof. cbv zeta. repeat (split; [reflexivity|]). reflexivity. Qed.

(** [criar_evento] stores the capacity it is handed.  A negative one, which
    the data model rules out, gives an event that starts below zero: hence
    [capacidade_valida] in the invariant of the counters. *)
Example criar_evento_capacidade_negativa :
  eventos (banco_final (criar_evento banco_vazio (-1))) = [mk_evento 1 (-1) (-1)].
Proof. reflexivity. Qed.

End Scenarios.

(** * More of the code *)

(** ** Enrolling, and what follows an enrollment *)

Section Enrollment.

Lemma selecionar_vagas_atualizar_vagas (evs : list evento) (e d e' : Z) :
  selecionar_vagas (atualizar_vagas evs e d) e' =
  option_map (fun v => if e' =? e then v + d else v) (selecionar_vagas evs e').
Proof.
  unfold selecionar_vagas. rewrite buscar_evento_atualizar_vagas.
  destruct (buscar_evento evs e') as [ev|] eqn:Hev; [|reflexivity].
  apply buscar_evento_Some in Hev as [_ Hid]. cbn [option_map]. rewrite Hid.
  now destruct (e' =? e).
Qed.

Lemma capacidades_atualizar_vagas (evs : list evento) (e d : Z) :
  map (fun ev => (ev_id ev, ev_capacidade_maxima ev)) (atualizar_vagas evs e d)
  = map (fun ev => (ev_id ev, ev_capacidade_maxima ev)) evs.
Proof.
  unfold atualizar_vagas. rewrite map_map. apply map_ext.
  intros ev. now destruct (ev_id ev =? e).
Qed.

Lemma atualizar_vagas_desfaz (evs : list evento) (e d : Z) :
  atualizar_vagas (atualizar_vagas evs e d) e (- d) = evs.
Proof.
  unfold atualizar_vagas. rewrite map_map. apply map_id_on.
  intros [id cap v] _. cbn [ev_id ev_capacidade_maxima ev_vagas_disponiveis].
  destruct (id =? e) eqn:He; cbn [ev_id ev_capacidade_maxima ev_vagas_disponiveis];
    rewrite He; [f_equal; lia | reflexivity].
Qed.

Lemma sem_alvo_cancelamento (ins : list inscricao) (p e : Z) :
  ~ In (p, e) (map par_inscricao ins) ->
  forall i, In i ins -> alvo_cancelamento p e i = false.
Proof.
  intros Hn i Hin. apply not_true_false. intros Ha. apply Hn.
  apply andb_true_iff in Ha as [Ha _]. apply mesmo_par_true in Ha.
  rewrite <- Ha. now apply in_map.
Qed.

Lemma sem_alvo_checkin (ins : list inscricao) (c : string) :
  ~ In c (map in_codigo_confirmacao ins) ->
  forall i, In i ins -> alvo_checkin c i = false.
Proof.
  intros Hn i Hin. apply not_true_false. intros Ha. apply Hn.
  apply alvo_checkin_true in Ha as [<- _]. now apply in_map.
Qed.

Lemma filter_nenhum {A : Type} (f : A -> bool) (l : list A) :
  (forall a, In a l -> f a = false) -> filter f l = [].
Proof.
  intros H. apply length_zero_iff_nil. now apply length_filter_zero.
Qed.

(** X1: [inscrever_participante] succeeds exactly when the event exists,
    has a slot left, the pair has no enrollment row and the code is new;
    it then appends one [confirmada] row under a fresh id with that code,
    takes one slot from that event and from no other, and leaves
    capacities and the waiting list alone. *)
Theorem inscrever_participante_sucesso (db : banco) (c t : string) (p e : Z) :
  ((exists id, retorno (inscrever_participante db c t p e) = RetId id)
   <-> exists v, selecionar_vagas (eventos db) e = Some v /\ 0 < v
                 /\ ~ In (p, e) (map par_inscricao (inscricoes db))
                 /\ ~ In c (map in_codigo_confirmacao (inscricoes db)))
  /\ (forall id, retorno (inscrever_participante db c t p e) = RetId id ->
        ~ In id (map in_id (inscricoes db))
        /\ inscricoes (banco_final (inscrever_participante db c t p e))
           = inscricoes db ++ [mk_inscricao id p e t Confirmada c false None]
        /\ (forall e',
              selecionar_vagas (eventos (banco_final (inscrever_participante db c t p e))) e'
              = option_map (fun v => if e' =? e then v - 1 else v)
                           (selecionar_vagas (eventos db) e'))
        /\ map (fun ev => (ev_id ev, ev_capacidade_maxima ev))
               (eventos (banco_final (inscrever_participante db c t p e)))
           = map (fun ev => (ev_id ev, ev_capacidade_maxima ev)) (eventos db)
        /\ lista_espera (banco_final (inscrever_participante db c t p e)) = lista_espera db
        /\ impresso (inscrever_participante db c t p e) = MsgInscricaoRealizada c).
Proof.
  destruct (inscrever_participante_casos db c t p e)
    as [[Hsel ->]|[(v & Hsel & Hv & ->)|[(v & Hsel & Hv & Hins & ->)
       |(v & novas & id' & Hsel & Hv & Hins & ->)]]];
    cbn [retorno banco_final impresso eventos inscricoes lista_espera].
  - split; [|intros id [=]]. split; [intros [id [=]]|].
    intros (v & Hv & _). congruence.
  - split; [|intros id [=]]. split; [intros [id [=]]|].
    intros (v' & Hv' & Hpos & _). rewrite Hsel in Hv'. injection Hv' as <-. lia.
  - split; [|intros id [=]]. split; [intros [id [=]]|].
    intros (v' & _ & _ & Hnp & Hnc). apply inserir_inscricao_None in Hins. tauto.
  - apply inserir_inscricao_Some in Hins as (Hnp & Hnc & -> & ->). split.
    + split; [intros _; now exists v | intros _; eexists; reflexivity].
    + intros id [= <-]. split; [apply proximo_id_novo|]. split; [reflexivity|].
      split; [|split; [apply capacidades_atualizar_vagas | easy]].
      intros e'. apply selecionar_vagas_atualizar_vagas.
Qed.

(** X2: an enrollment followed by its cancellation gives every event its
    slots back, row for row; what stays behind is the enrollment row, now
    [cancelada]. *)
Theorem inscrever_e_cancelar (db : banco) (c t : string) (p e id : Z) :
  retorno (inscrever_participante db c t p e) = RetId id ->
  retorno (cancelar_inscricao (banco_final (inscrever_participante db c t p e)) p e) = true
  /\ eventos (banco_final
       (cancelar_inscricao (banco_final (inscrever_participante db c t p e)) p e))
     = eventos db
  /\ inscricoes (banco_final
       (cancelar_inscricao (banco_final (inscrever_participante db c t p e)) p e))
     = inscricoes db ++ [mk_inscricao id p e t Cancelada c false None]
  /\ lista_espera (banco_final
       (cancelar_inscricao (banco_final (inscrever_participante db c t p e)) p e))
     = lista_espera db.
Proof.
  destruct (inscrever_participante_casos db c t p e)
    as [[_ ->]|[(v & _ & _ & ->)|[(v & _ & _ & _ & ->)
       |(v & novas & id' & Hsel & Hv & Hins & ->)]]]; try discriminate.
  cbn [retorno banco_final]. intros [= <-].
  apply inserir_inscricao_Some in Hins as (Hnp & _ & -> & ->).
  set (id := proximo_id (map in_id (inscricoes db))).
  unfold cancelar_inscricao, atualizar_cancelada. cbn [eventos inscricoes lista_espera].
  rewrite filter_app, map_app, length_app.
  rewrite (filter_nenhum _ _ (sem_alvo_cancelamento _ p e Hnp)).
  assert (Hnova : alvo_cancelamento p e (mk_inscricao id p e t Confirmada c false None) = true).
  { apply alvo_cancelamento_true. easy. }
  cbn [filter map]. rewrite Hnova. cbn [length Nat.add Nat.ltb Nat.leb].
  cbn [retorno banco_final eventos inscricoes lista_espera].
  split; [reflexivity|]. split; [apply (atualizar_vagas_desfaz _ e (-1))|].
  split; [|reflexivity]. f_equal. apply map_id_on. intros i Hin.
  now rewrite (sem_alvo_cancelamento _ p e Hnp i Hin).
Qed.

(** X3: the code issued by a successful enrollment checks that enrollment
    in: [realizar_checkin] with it succeeds, marks that row [presente]
    with the time of the call, and changes no other row and no counter. *)
Theorem inscrever_e_checkin (db : banco) (c t t' : string) (p e id : Z) :
  retorno (inscrever_participante db c t p e) = RetId id ->
  retorno (realizar_checkin (banco_final (inscrever_participante db c t p e)) c t') = true
  /\ inscricoes (banco_final
       (realizar_checkin (banco_final (inscrever_participante db c t p e)) c t'))
     = inscricoes db ++ [mk_inscricao id p e t Presente c true (Some t')]
  /\ eventos (banco_final
       (realizar_checkin (banco_final (inscrever_participante db c t p e)) c t'))
     = eventos (banco_final (inscrever_participante db c t p e))
  /\ lista_espera (banco_final
       (realizar_checkin (banco_final (inscrever_participante db c t p e)) c t'))
     = lista_espera db.
Proof.
  destruct (inscrever_participante_casos db c t p e)
    as [[_ ->]|[(v & _ & _ & ->)|[(v & _ & _ & _ & ->)
       |(v & novas & id' & Hsel & Hv & Hins & ->)]]]; try discriminate.
  cbn [retorno banco_final]. intros [= <-].
  apply inserir_inscricao_Some in Hins as (_ & Hnc & -> & ->).
  set (id := proximo_id (map in_id (inscricoes db))).
  unfold realizar_checkin, atualizar_presente. cbn [eventos inscricoes lista_espera].
  rewrite filter_app, map_app, length_app.
  rewrite (filter_nenhum _ _ (sem_alvo_checkin _ c Hnc)).
  assert (Hnova : alvo_checkin c (mk_inscricao id p e t Confirmada c false None) = true).
  { apply alvo_checkin_true. easy. }
  cbn [filter map]. rewrite Hnova. cbn [length Nat.add Nat.ltb Nat.leb].
  cbn [retorno banco_final eventos inscricoes lista_espera].
  split; [reflexivity|]. split; [|easy]. f_equal. apply map_id_on. intros i Hin.
  now rewrite (sem_alvo_checkin _ c Hnc i Hin).
Qed.

End Enrollment.

(** ** The life of an enrollment row *)

Section Lifecycle.

Lemma evolui_refl (i : inscricao) : evolui i i.
Proof. unfold evolui. repeat split; try reflexivity. now left. Qed.

Lemma evolui_trans (i j k : inscricao) : evolui i j -> evolui j k -> evolui i k.
Proof.
  unfold evolui.
  intros (H1 & H2 & H3 & H4 & H5 & Hij) (K1 & K2 & K3 & K4 & K5 & Hjk).
  repeat split; try congruence.
  destruct Hjk as [->|[[Hs Hs']|[Hs Hs']]]; [exact Hij| |];
    (destruct Hij as [->|[[Hi Hj]|[Hi Hj]]]; [tauto | congruence | congruence]).
Qed.

Lemma Forall2_evolui_refl (l : list inscricao) : Forall2 evolui l l.
Proof. induction l; constructor; [apply evolui_refl | easy]. Qed.

Lemma Forall2_evolui_trans (l1 l2 l3 : list inscricao) :
  Forall2 evolui l1 l2 -> Forall2 evolui l2 l3 -> Forall2 evolui l1 l3.
Proof.
  intros H12. revert l3. induction H12 as [|i j l1 l2 Hij _ IH]; intros l3 H23.
  - inversion H23. constructor.
  - inversion H23 as [|? k ? l3' Hjk H23']; subst. constructor.
    + now apply (evolui_trans i j k).
    + now apply IH.
Qed.

Lemma Forall2_In_l {A B : Type} (R : A -> B -> Prop) (l : list A) (l' : list B) (a : A) :
  Forall2 R l l' -> In a l -> exists b, In b l' /\ R a b.
Proof.
  induction 1 as [|x y l l' Hxy _ IH]; [easy|]. intros [<-|Hin].
  - exists y. split; [now left | easy].
  - destruct (IH Hin) as (b & Hb & Hab). exists b. split; [now right | easy].
Qed.

Lemma evolui_cancelada (p e : Z) (i : inscricao) :
  evolui i (if alvo_cancelamento p e i then com_status Cancelada i else i).
Proof.
  destruct (alvo_cancelamento p e i) eqn:Ha; [|apply evolui_refl].
  apply alvo_cancelamento_true in Ha as (_ & _ & Hs).
  unfold evolui. cbn. repeat split. right. left. easy.
Qed.

Lemma evolui_presente (c t : string) (i : inscricao) :
  evolui i (if alvo_checkin c i then marcar_presente t i else i).
Proof.
  destruct (alvo_checkin c i) eqn:Ha; [|apply evolui_refl].
  apply alvo_checkin_true in Ha as [_ Hs].
  unfold evolui. cbn. repeat split. right. right. easy.
Qed.

(** One call: the rows that were there evolve in place, and at most one
    row, [confirmada], is appended. *)
Lemma inscricoes_executar (db : banco) (o : operacao) :
  exists antigas novas,
    inscricoes (executar db o) = antigas ++ novas
    /\ Forall2 evolui (inscricoes db) antigas
    /\ Forall (fun i => in_status i = Confirmada) novas.
Proof.
  destruct o as [cap|c t p e|t p e|p e|c t]; cbn [executar].
  - exists (inscricoes db), []. rewrite app_nil_r.
    split; [|split; [apply Forall2_evolui_refl | constructor]].
    now destruct (criar_evento_casos db cap) as [[_ ->]|[_ ->]].
  - destruct (inscrever_participante_casos db c t p e)
      as [[_ ->]|[(v & _ & _ & ->)|[(v & _ & _ & _ & ->)
         |(v & novas & id & _ & _ & Hins & ->)]]]; cbn [banco_final inscricoes].
    1-3: exists (inscricoes db), []; rewrite app_nil_r;
      (split; [reflexivity | split; [apply Forall2_evolui_refl | constructor]]).
    apply inserir_inscricao_Some in Hins as (_ & _ & _ & ->).
    eexists (inscricoes db), [_]. split; [reflexivity|].
    split; [apply Forall2_evolui_refl | repeat constructor].
  - exists (inscricoes db), []. rewrite app_nil_r.
    split; [|split; [apply Forall2_evolui_refl | constructor]].
    unfold adicionar_lista_espera. now destruct (inserir_espera _ p e _ t).
  - destruct (cancelar_inscricao_casos db p e) as [[_ ->]|[_ ->]]; cbn [banco_final inscricoes].
    + exists (inscricoes db), []. rewrite app_nil_r.
      split; [reflexivity | split; [apply Forall2_evolui_refl | constructor]].
    + eexists _, []. rewrite app_nil_r. split; [reflexivity|]. split; [|constructor].
      apply Forall2_map_r. intros i _. apply evolui_cancelada.
  - destruct (realizar_checkin_casos db c t) as [[_ ->]|[_ ->]]; cbn [banco_final inscricoes].
    + exists (inscricoes db), []. rewrite app_nil_r.
      split; [reflexivity | split; [apply Forall2_evolui_refl | constructor]].
    + eexists _, []. rewrite app_nil_r. split; [reflexivity|]. split; [|constructor].
      apply Forall2_map_r. intros i _. apply evolui_presente.
Qed.

Lemma inscricoes_executar_todas (ops : list operacao) (db : banco) :
  exists antigas novas,
    inscricoes (executar_todas db ops) = antigas ++ novas
    /\ Forall2 evolui (inscricoes db) antigas.
Proof.
  revert db. induction ops as [|o ops IH]; intros db.
  - exists (inscricoes db), []. rewrite app_nil_r. split; [reflexivity | apply Forall2_evolui_refl].
  - cbn [executar_todas fold_left].
    destruct (IH (executar db o)) as (antigas1 & novas1 & Hfinal & Hev1).
    destruct (inscricoes_executar db o) as (antigas0 & novas0 & Hpasso & Hev0 & _).
    unfold executar_todas in Hfinal. rewrite Hpasso in Hev1.
    apply Forall2_app_inv_l in Hev1 as (a & b & Ha & Hb & ->).
    exists a, (b ++ novas1). split; [now rewrite Hfinal, app_assoc|].
    now apply (Forall2_evolui_trans _ antigas0).
Qed.

Lemma evolui_pares (l l' : list inscricao) :
  Forall2 evolui l l' -> map par_inscricao l' = map par_inscricao l.
Proof.
  induction 1 as [|i j l l' (_ & Hp & He & _) _ IH]; [reflexivity|].
  cbn [map]. unfold par_inscricao at 1 3. now rewrite Hp, He, IH.
Qed.

Lemma alcancavel_executar_todas (db : banco) (ops : list operacao) :
  alcancavel db -> alcancavel (executar_todas db ops).
Proof.
  intros [ops0 ->]. exists (ops0 ++ ops). unfold executar_todas. now rewrite fold_left_app.
Qed.

Lemma cancelar_inscricao_sem_alvo (db : banco) (p e : Z) :
  (forall i, In i (inscricoes db) -> par_inscricao i = (p, e) -> in_status i <> Confirmada) ->
  cancelar_inscricao db p e = mk_saida db false MsgInscricaoNaoEncontradaOuJaCancelada.
Proof.
  intros Hno.
  destruct (cancelar_inscricao_casos db p e) as [[_ ->]|[Hpos _]]; [easy|].
  exfalso.
  assert (Hz : length (filter (alvo_cancelamento p e) (inscricoes db)) = 0%nat).
  { apply length_filter_zero. intros i Hin. apply not_true_false.
    rewrite alvo_cancelamento_true. intros (Hp & He & Hs).
    apply (Hno i Hin); [|exact Hs]. unfold par_inscricao. now rewrite Hp, He. }
  lia.
Qed.

(** X4: rows of [inscricoes] are never deleted, so a pair that has a row,
    in whatever state, is turned away by [inscrever_participante] from
    then on, whatever calls come in between: cancelling does not free the
    pair for a new enrollment. *)
Theorem par_inscrito_nunca_mais (db : banco) (p e : Z) :
  In (p, e) (map par_inscricao (inscricoes db)) ->
  forall ops c t,
    (retorno (inscrever_participante (executar_todas db ops) c t p e) = RetNone
     \/ retorno (inscrever_participante (executar_todas db ops) c t p e) = RetListaEspera)
    /\ banco_final (inscrever_participante (executar_todas db ops) c t p e)
       = executar_todas db ops.
Proof.
  intros Hin ops c t.
  assert (Hin' : In (p, e) (map par_inscricao (inscricoes (executar_todas db ops)))).
  { destruct (inscricoes_executar_todas ops db) as (antigas & novas & -> & Hev).
    rewrite map_app, (evolui_pares _ _ Hev). apply in_or_app. now left. }
  destruct (inscrever_participante_casos (executar_todas db ops) c t p e)
    as [[_ ->]|[(v & _ & _ & ->)|[(v & _ & _ & _ & ->)
       |(v & novas & id & _ & _ & Hins & _)]]]; cbn; auto.
  apply inserir_inscricao_Some in Hins as (Hnp & _). contradiction.
Qed.

(** X5: across any calls an enrollment row stays where it is and keeps
    its id, participant, event, code and date; its state can only go from
    [confirmada] to [cancelada] or to [presente], and both of these are
    final.  New rows come after the old ones. *)
Theorem inscricoes_ciclo_de_vida (db : banco) (ops : list operacao) :
  exists antigas novas,
    inscricoes (executar_todas db ops) = antigas ++ novas
    /\ Forall2 evolui (inscricoes db) antigas
    /\ Forall2 (fun i i' => in_status i <> Confirmada -> i' = i) (inscricoes db) antigas.
Proof.
  destruct (inscricoes_executar_todas ops db) as (antigas & novas & Hfinal & Hev).
  exists antigas, novas. split; [exact Hfinal|]. split; [exact Hev|].
  clear Hfinal. induction Hev as [|i j l l' Hij _ IH]; constructor; [|exact IH].
  intros Hs. destruct Hij as (_ & _ & _ & _ & _ & [->|[[Hc _]|[Hc _]]]);
    [reflexivity | contradiction | contradiction].
Qed.

(** X6: once an enrollment of a reachable store has left [confirmada]
    (it was cancelled, or checked in), no later call brings it back:
    cancelling its pair and checking in with its code both fail from then
    on.  A slot taken by somebody who checked in is never released, and
    the code of a cancelled enrollment never checks anybody in. *)
Theorem inscricao_encerrada (db : banco) (i : inscricao) :
  alcancavel db ->
  In i (inscricoes db) ->
  in_status i <> Confirmada ->
  forall ops t,
    cancelar_inscricao (executar_todas db ops) (in_participante_id i) (in_evento_id i)
    = mk_saida (executar_todas db ops) false MsgInscricaoNaoEncontradaOuJaCancelada
    /\ realizar_checkin (executar_todas db ops) (in_codigo_confirmacao i) t
       = mk_saida (executar_todas db ops) false MsgCodigoInvalidoOuCheckinJaRealizado.
Proof.
  intros Halc Hin Hs ops t.
  pose proof (alcancavel_consistente _ (alcancavel_executar_todas db ops Halc)) as Hcs.
  assert (Hin' : In i (inscricoes (executar_todas db ops))).
  { destruct (inscricoes_executar_todas ops db) as (antigas & novas & -> & Hev).
    destruct (Forall2_In_l _ _ _ i Hev Hin) as (i' & Hi' & Hii').
    apply in_or_app. left.
    destruct Hii' as (_ & _ & _ & _ & _ & [->|[[Hc _]|[Hc _]]]);
      [exact Hi' | contradiction | contradiction]. }
  split.
  - apply cancelar_inscricao_sem_alvo. intros j Hj Hpar.
    assert (j = i) as ->; [|exact Hs].
    apply (NoDup_map_inj_on par_inscricao _ j i (cs_pares _ Hcs) Hj Hin').
    now rewrite Hpar.
  - apply realizar_checkin_sem_alvo. intros j Hj Hc.
    assert (j = i) as ->; [|exact Hs].
    now apply (NoDup_map_inj_on in_codigo_confirmacao _ j i (cs_codigos _ Hcs) Hj Hin').
Qed.

End Lifecycle.

(** ** Keys and ids of a reachable store *)

Section Keys.

Lemma inserir_espera_Some_par (les novas : list espera) (p e pos : Z) (t : string) :
  inserir_espera les p e pos t = Some novas ->
  ~ In (p, e) (map par_espera les)
  /\ novas = les ++ [mk_espera (proximo_id (map le_id les)) p e pos t false].
Proof.
  unfold inserir_espera.
  destruct (existsb (mesmo_par_espera p e) les) eqn:Hex; [easy|]. intros [= <-].
  split; [|reflexivity].
  rewrite (existsb_false_In _ par_espera (p, e)) in Hex; [exact Hex|].
  intros l. unfold mesmo_par_espera, par_espera. rewrite andb_true_iff, !Z.eqb_eq.
  split; [intros [-> ->]; reflexivity | intros [= -> ->]; easy].
Qed.

Lemma inserir_espera_None (les : list espera) (p e pos : Z) (t : string) :
  inserir_espera les p e pos t = None <-> In (p, e) (map par_espera les).
Proof.
  destruct (inserir_espera les p e pos t) as [novas|] eqn:Hins.
  - apply inserir_espera_Some_par in Hins as [Hn _]. split; [discriminate | contradiction].
  - split; [intros _ | reflexivity].
    unfold inserir_espera in Hins.
    destruct (existsb (mesmo_par_espera p e) les) eqn:Hex; [|discriminate].
    apply existsb_exists in Hex as (l & Hin & Hl). apply in_map_iff. exists l.
    split; [|exact Hin]. unfold mesmo_par_espera in Hl.
    apply andb_true_iff in Hl as [Hp He]. apply Z.eqb_eq in Hp, He.
    unfold par_espera. now rewrite Hp, He.
Qed.

(** One call either leaves the waiting list alone or appends one entry. *)
Lemma lista_espera_executar (db : banco) (o : operacao) :
  lista_espera (executar db o) = lista_espera db
  \/ exists t p e,
       ~ In (p, e) (map par_espera (lista_espera db))
       /\ lista_espera (executar db o)
          = lista_espera db
            ++ [mk_espera (proximo_id (map le_id (lista_espera db))) p e
                          (proxima_posicao (lista_espera db) e) t false].
Proof.
  destruct o as [cap|c t p e|t p e|p e|c t]; cbn [executar].
  - left. now destruct (criar_evento_casos db cap) as [[_ ->]|[_ ->]].
  - left. destruct (inscrever_participante_casos db c t p e)
      as [[_ ->]|[(v & _ & _ & ->)|[(v & _ & _ & _ & ->)|(v & novas & id & _ & _ & _ & ->)]]];
      reflexivity.
  - unfold adicionar_lista_espera.
    destruct (inserir_espera _ p e _ t) as [novas|] eqn:Hins; [|now left].
    apply inserir_espera_Some_par in Hins as [Hn ->]. right. now exists t, p, e.
  - left. destruct (cancelar_inscricao_casos db p e) as [[_ ->]|[_ ->]]; reflexivity.
  - left. destruct (realizar_checkin_casos db c t) as [[_ ->]|[_ ->]]; reflexivity.
Qed.

Lemma maior_id_snoc (l : list Z) (x : Z) :
  0 <= x -> fold_right Z.max 0 (l ++ [x]) = Z.max (fold_right Z.max 0 l) x.
Proof.
  intros Hx. induction l as [|y l IH]; cbn [app fold_right]; [lia|]. rewrite IH. lia.
Qed.

Lemma de_1_a_S (n : nat) : de_1_a (S n) = de_1_a n ++ [Z.of_nat (S n)].
Proof. unfold de_1_a. now rewrite seq_S, map_app. Qed.

Lemma proximo_id_de_1_a (n : nat) : proximo_id (de_1_a n) = Z.of_nat (S n).
Proof.
  unfold proximo_id.
  enough (fold_right Z.max 0 (de_1_a n) = Z.of_nat n) by lia.
  induction n as [|n IH]; [reflexivity|].
  rewrite de_1_a_S, maior_id_snoc, IH by lia. lia.
Qed.

Lemma de_1_a_snoc {A : Type} (f : A -> Z) (l : list A) (x : A) :
  map f l = de_1_a (length l) ->
  f x = proximo_id (map f l) ->
  map f (l ++ [x]) = de_1_a (length (l ++ [x])).
Proof.
  intros Hl Hx. rewrite map_app, length_app, Nat.add_1_r, de_1_a_S. cbn [map length].
  now rewrite Hx, Hl, proximo_id_de_1_a, <- Hl.
Qed.

Lemma de_1_a_positivo (n : nat) (x : Z) : In x (de_1_a n) -> 1 <= x.
Proof.
  unfold de_1_a. rewrite in_map_iff. intros (k & <- & Hk). apply in_seq in Hk. lia.
Qed.

Lemma pares_espera_distintos (db : banco) :
  alcancavel db -> NoDup (map par_espera (lista_espera db)).
Proof.
  revert db. apply alcancavel_ind; [constructor|].
  intros db o IH. destruct (lista_espera_executar db o) as [->|(t & p & e & Hn & ->)];
    [exact IH|].
  rewrite map_app. now apply NoDup_snoc.
Qed.

(** X7: in every reachable store the unique keys of the schema hold: no
    two enrollments share a confirmation code or a (participant, event)
    pair, no two events share an id, and no two waiting-list entries share
    a (participant, event) pair. *)
Theorem chaves_unicas (db : banco) :
  alcancavel db ->
  NoDup (map in_codigo_confirmacao (inscricoes db))
  /\ NoDup (map par_inscricao (inscricoes db))
  /\ NoDup (map ev_id (eventos db))
  /\ NoDup (map par_espera (lista_espera db)).
Proof.
  intros Halc. pose proof (alcancavel_consistente db Halc) as [Hev Hpar Hcod _ _ _].
  repeat (split; [assumption|]).
  now apply pares_espera_distintos.
Qed.

(** X8: ids are handed out in order.  In every reachable store the events,
    the enrollments and the waiting-list entries carry the ids 1, 2, ...,
    n in insertion order, so the id a successful call returns is the
    number of rows its table then has. *)
Theorem ids_em_sequencia (db : banco) :
  alcancavel db ->
  map ev_id (eventos db) = de_1_a (length (eventos db))
  /\ map in_id (inscricoes db) = de_1_a (length (inscricoes db))
  /\ map le_id (lista_espera db) = de_1_a (length (lista_espera db)).
Proof.
  revert db. apply alcancavel_ind; [easy|].
  intros db o (Hev & Hin & Hle). split; [|split].
  - destruct o as [cap|c t p e|t p e|p e|c t]; cbn [executar].
    + destruct (criar_evento_casos db cap) as [[_ ->]|[_ ->]]; [|exact Hev].
      cbn [banco_final eventos]. now apply de_1_a_snoc.
    + destruct (inscrever_participante_casos db c t p e)
        as [[_ ->]|[(v & _ & _ & ->)|[(v & _ & _ & _ & ->)|(v & novas & id & _ & _ & _ & ->)]]];
        try exact Hev.
      cbn [banco_final eventos]. unfold atualizar_vagas at 2. rewrite length_map.
      now rewrite ids_atualizar_vagas.
    + unfold adicionar_lista_espera. now destruct (inserir_espera _ p e _ t).
    + destruct (cancelar_inscricao_casos db p e) as [[_ ->]|[_ ->]]; [exact Hev|].
      cbn [banco_final eventos]. unfold atualizar_vagas at 2. rewrite length_map.
      now rewrite ids_atualizar_vagas.
    + now destruct (realizar_checkin_casos db c t) as [[_ ->]|[_ ->]].
  - destruct o as [cap|c t p e|t p e|p e|c t]; cbn [executar].
    + now destruct (criar_evento_casos db cap) as [[_ ->]|[_ ->]].
    + destruct (inscrever_participante_casos db c t p e)
        as [[_ ->]|[(v & _ & _ & ->)|[(v & _ & _ & _ & ->)|(v & novas & id & _ & _ & Hins & ->)]]];
        try exact Hin.
      apply inserir_inscricao_Some in Hins as (_ & _ & -> & ->).
      cbn [banco_final inscricoes]. now apply de_1_a_snoc.
    + unfold adicionar_lista_espera. now destruct (inserir_espera _ p e _ t).
    + destruct (cancelar_inscricao_casos db p e) as [[_ ->]|[_ ->]]; [exact Hin|].
      cbn [banco_final inscricoes]. rewrite map_atualizar_cancelada by reflexivity.
      cbn [atualizar_cancelada fst]. now rewrite length_map.
    + destruct (realizar_checkin_casos db c t) as [[_ ->]|[_ ->]]; [exact Hin|].
      cbn [banco_final inscricoes]. rewrite map_atualizar_presente by reflexivity.
      cbn [atualizar_presente fst]. now rewrite length_map.
  - destruct (lista_espera_executar db o) as [->|(t & p & e & _ & ->)]; [exact Hle|].
    now apply de_1_a_snoc.
Qed.

Lemma registros_coerentes (db : banco) :
  alcancavel db -> forall i, In i (inscricoes db) -> registro_coerente i.
Proof.
  revert db.
  apply (alcancavel_ind (fun db => forall i, In i (inscricoes db) -> registro_coerente i));
    [intros i []|].
  intros db o IH i'. destruct o as [cap|c t p e|t p e|p e|c t]; cbn [executar].
  - destruct (criar_evento_casos db cap) as [[_ ->]|[_ ->]]; apply IH.
  - destruct (inscrever_participante_casos db c t p e)
      as [[_ ->]|[(v & _ & _ & ->)|[(v & _ & _ & _ & ->)|(v & novas & id & _ & _ & Hins & ->)]]];
      try apply IH.
    apply inserir_inscricao_Some in Hins as (_ & _ & _ & ->).
    cbn [banco_final inscricoes]. intros [Hin|[<-|[]]]%in_app_or; [now apply IH|].
    split; [reflexivity | discriminate].
  - unfold adicionar_lista_espera. destruct (inserir_espera _ p e _ t); apply IH.
  - destruct (cancelar_inscricao_casos db p e) as [[_ ->]|[_ ->]]; [apply IH|].
    cbn [banco_final inscricoes atualizar_cancelada fst].
    intros (i & <- & Hin)%in_map_iff. specialize (IH i Hin).
    destruct (alvo_cancelamento p e i) eqn:Ha; [|exact IH].
    apply alvo_cancelamento_true in Ha as (_ & _ & Hs).
    destruct IH as [Hp Hd]. rewrite Hs in Hp, Hd. unfold registro_coerente. cbn.
    split; [exact Hp|]. destruct (in_data_checkin i); [discriminate Hd | discriminate].
  - destruct (realizar_checkin_casos db c t) as [[_ ->]|[_ ->]]; [apply IH|].
    cbn [banco_final inscricoes atualizar_presente fst].
    intros (i & <- & Hin)%in_map_iff. specialize (IH i Hin).
    destruct (alvo_checkin c i); [|exact IH]. split; reflexivity.
Qed.

(** X9: in every reachable store the [presente] flag and [data_checkin]
    say what [status] says: the flag is set, and the check-in time
    recorded, exactly on the rows in state [presente]. *)
Theorem presente_acompanha_status (db : banco) (i : inscricao) :
  alcancavel db ->
  In i (inscricoes db) ->
  in_presente i = status_eqb (in_status i) Presente
  /\ match in_data_checkin i with
     | Some _ => in_status i = Presente
     | None => in_status i <> Presente
     end.
Proof.
  intros Halc Hin. exact (registros_coerentes db Halc i Hin).
Qed.

(** X10: [criar_evento] and the lookup of [inscrever_participante] agree.
    When [criar_evento] returns [None] nothing was stored.  Whenever it
    returns an id, the id is new, looking that id up gives the capacity
    as the number of open slots, and every other lookup, the enrollments
    and the waiting list are as before. *)
Theorem criar_evento_consulta (db : banco) (capacidade : Z) :
  (retorno (criar_evento db capacidade) = None ->
   banco_final (criar_evento db capacidade) = db)
  /\ (forall id, retorno (criar_evento db capacidade) = Some id ->
        ~ In id (map ev_id (eventos db))
        /\ buscar_evento (eventos (banco_final (criar_evento db capacidade))) id
           = Some (mk_evento id capacidade capacidade)
        /\ selecionar_vagas (eventos (banco_final (criar_evento db capacidade))) id
           = Some capacidade
        /\ (forall e', e' <> id ->
              buscar_evento (eventos (banco_final (criar_evento db capacidade))) e'
              = buscar_evento (eventos db) e')
        /\ inscricoes (banco_final (criar_evento db capacidade)) = inscricoes db
        /\ lista_espera (banco_final (criar_evento db capacidade)) = lista_espera db).
Proof.
  destruct (criar_evento_casos db capacidade) as [[_ ->]|[_ ->]];
    cbn [retorno banco_final eventos inscricoes lista_espera];
    [|split; [reflexivity | discriminate]].
  split; [discriminate|]. intros id [= <-].
  pose proof (proximo_id_novo (map ev_id (eventos db))) as Hnovo.
  assert (Hbusca : forall e',
    buscar_evento (eventos db ++ [mk_evento (proximo_id (map ev_id (eventos db)))
                                            capacidade capacidade]) e'
    = match buscar_evento (eventos db) e' with
      | Some ev => Some ev
      | None => if proximo_id (map ev_id (eventos db)) =? e'
                then Some (mk_evento (proximo_id (map ev_id (eventos db))) capacidade capacidade)
                else None
      end).
  { intros e'. unfold buscar_evento. generalize (proximo_id (map ev_id (eventos db))) as id.
    intros id. clear Hnovo. induction (eventos db) as [|ev evs IH]; simpl.
    - now destruct (id =? e').
    - now destruct (ev_id ev =? e'). }
  assert (Hnone : buscar_evento (eventos db) (proximo_id (map ev_id (eventos db))) = None).
  { destruct (buscar_evento _ _) as [ev|] eqn:Hev; [|reflexivity].
    apply buscar_evento_Some in Hev as [Hin Hid]. exfalso. apply Hnovo.
    rewrite <- Hid. now apply in_map. }
  split; [exact Hnovo|].
  split; [now rewrite Hbusca, Hnone, Z.eqb_refl|].
  split; [unfold selecionar_vagas; now rewrite Hbusca, Hnone, Z.eqb_refl|].
  split; [|easy]. intros e' He'. rewrite Hbusca.
  destruct (buscar_evento (eventos db) e'); [reflexivity|].
  destruct (Z.eqb_spec (proximo_id (map ev_id (eventos db))) e'); [congruence | reflexivity].
Qed.

End Keys.

(** ** The waiting list, the code generator and the report *)

Section Waitlist.

(** X11: [adicionar_lista_espera] succeeds exactly when the pair has no
    entry yet.  It asks neither whether the event exists nor whether it is
    full nor whether the participant is enrolled, and in no case touches
    events or enrollments; when it fails the store is unchanged. *)
Theorem adicionar_lista_espera_resultado (db : banco) (t : string) (p e : Z) :
  (retorno (adicionar_lista_espera db t p e) = true
   <-> ~ In (p, e) (map par_espera (lista_espera db)))
  /\ (retorno (adicionar_lista_espera db t p e) = false ->
      banco_final (adicionar_lista_espera db t p e) = db
      /\ impresso (adicionar_lista_espera db t p e) = MsgJaNaListaEspera)
  /\ eventos (banco_final (adicionar_lista_espera db t p e)) = eventos db
  /\ inscricoes (banco_final (adicionar_lista_espera db t p e)) = inscricoes db.
Proof.
  unfold adicionar_lista_espera.
  destruct (inserir_espera _ p e _ t) as [novas|] eqn:Hins;
    cbn [retorno banco_final impresso eventos inscricoes].
  - apply inserir_espera_Some_par in Hins as [Hn _].
    split; [easy|]. split; [discriminate | easy].
  - apply inserir_espera_None in Hins.
    split; [split; [discriminate | contradiction]|]. easy.
Qed.

Lemma proxima_posicao_fila (les : list espera) (e : Z) :
  (forall l, In l (fila_do_evento les e) -> 0 <= le_posicao l) ->
  proxima_posicao les e = proximo_id (map le_posicao (fila_do_evento les e)).
Proof.
  unfold proxima_posicao, proximo_id, fila_do_evento. intros Hpos. f_equal.
  induction les as [|l les IH]; cbn [max_posicao filter]; [reflexivity|].
  cbn [filter] in Hpos. destruct (le_evento_id l =? e).
  - cbn [map fold_right]. rewrite <- IH by (intros l' Hl'; apply Hpos; now right).
    specialize (Hpos l (or_introl eq_refl)).
    destruct (max_posicao les e); lia.
  - now apply IH.
Qed.

Lemma fila_snoc (les : list espera) (l : espera) (e : Z) :
  fila_do_evento (les ++ [l]) e =
  fila_do_evento les e ++ (if le_evento_id l =? e then [l] else []).
Proof. unfold fila_do_evento. rewrite filter_app. cbn [filter]. reflexivity. Qed.

Lemma filas_em_sequencia (db : banco) :
  alcancavel db ->
  forall e, map le_posicao (fila_do_evento (lista_espera db) e)
            = de_1_a (length (fila_do_evento (lista_espera db) e)).
Proof.
  revert db.
  apply (alcancavel_ind (fun db => forall e,
           map le_posicao (fila_do_evento (lista_espera db) e)
           = de_1_a (length (fila_do_evento (lista_espera db) e)))); [easy|].
  intros db o IH e'.
  destruct (lista_espera_executar db o) as [->|(t & p & e & _ & ->)]; [apply IH|].
  rewrite fila_snoc. cbn [le_evento_id].
  destruct (Z.eqb_spec e e') as [->|Hne]; [|rewrite app_nil_r; apply IH].
  apply de_1_a_snoc; [apply IH|]. cbn [le_posicao].
  apply proxima_posicao_fila. intros l Hl.
  assert (H1 : 1 <= le_posicao l); [|lia].
  apply (de_1_a_positivo (length (fila_do_evento (lista_espera db) e'))).
  rewrite <- IH. now apply in_map.
Qed.

(** X12: in every reachable store the entries of one event's waiting list
    carry, in arrival order, the positions 1, 2, ..., n, with no gap. *)
Theorem posicoes_em_sequencia (db : banco) (e : Z) :
  alcancavel db ->
  map le_posicao (fila_do_evento (lista_espera db) e)
  = de_1_a (length (fila_do_evento (lista_espera db) e))
  /\ proxima_posicao (lista_espera db) e
     = Z.of_nat (length (fila_do_evento (lista_espera db) e)) + 1.
Proof.
  intros Halc. pose proof (filas_em_sequencia db Halc e) as Hfila.
  split; [exact Hfila|].
  rewrite proxima_posicao_fila.
  - rewrite Hfila, proximo_id_de_1_a. lia.
  - intros l Hl.
    assert (H1 : 1 <= le_posicao l); [|lia].
    apply (de_1_a_positivo (length (fila_do_evento (lista_espera db) e))).
    rewrite <- Hfila. now apply in_map.
Qed.

(** X13: no call ever removes or alters a waiting-list entry: after any
    calls the old entries are still there, in place, followed by the new
    ones, none of which is marked as notified. *)
Theorem lista_espera_so_cresce (db : banco) (ops : list operacao) :
  exists novas,
    lista_espera (executar_todas db ops) = lista_espera db ++ novas
    /\ Forall (fun l => le_notificado l = false) novas.
Proof.
  revert db. induction ops as [|o ops IH]; intros db.
  - exists []. now rewrite app_nil_r.
  - cbn [executar_todas fold_left]. destruct (IH (executar db o)) as (novas & Hfinal & Hnot).
    unfold executar_todas in Hfinal. rewrite Hfinal.
    destruct (lista_espera_executar db o) as [->|(t & p & e & _ & ->)].
    + now exists novas.
    + eexists (_ :: novas). rewrite <- app_assoc. split; [reflexivity|].
      constructor; [reflexivity | exact Hnot].
Qed.

End Waitlist.

Section Report.

Lemma ativas_das_linhas (ins : list inscricao) (e : Z) :
  inscricoes_ativas ins e
  = length (filter ocupa_vaga (filter (fun i => in_evento_id i =? e) ins)).
Proof.
  unfold inscricoes_ativas. induction ins as [|i ins IH]; [reflexivity|].
  cbn [filter]. destruct (in_evento_id i =? e); cbn [andb filter]; [|exact IH].
  destruct (ocupa_vaga i); cbn [length]; now rewrite IH.
Qed.

Lemma contagem_por_status (l : list inscricao) :
  (forall i, In i l -> registro_coerente i) ->
  (length (filter (fun i => status_eqb (in_status i) Confirmada) l)
   + length (filter (fun i => status_eqb (in_status i) Cancelada) l)
   + length (filter (fun i => in_presente i) l) = length l
   /\ length (filter ocupa_vaga l)
      = length (filter (fun i => status_eqb (in_status i) Confirmada) l)
        + length (filter (fun i => in_presente i) l))%nat.
Proof.
  induction l as [|i l IH]; [easy|]. intros Hco.
  destruct IH as [IH1 IH2]; [intros j Hj; apply Hco; now right|].
  destruct (Hco i (or_introl eq_refl)) as [Hp _].
  cbn [filter]. unfold ocupa_vaga at 1. rewrite Hp.
  destruct (in_status i); cbn [status_eqb negb length]; lia.
Qed.

(** X14: the counts [relatorio_evento] prints agree with the slot counter.
    For an event of a reachable store with at least one enrollment row,
    confirmed + cancelled + present is the total, and confirmed + present
    is [capacidade_maxima - vagas_disponiveis]; with no enrollment row the
    total is 0, the three sums are NULL and every slot is open. *)
Theorem estatisticas_inscricoes_coerentes (db : banco) (ev : evento) :
  alcancavel db ->
  In ev (eventos db) ->
  match estatisticas_inscricoes (inscricoes db) (ev_id ev) with
  | (total, Some confirmadas, Some canceladas, Some presentes) =>
      (0 < total)%nat
      /\ (confirmadas + canceladas + presentes = total)%nat
      /\ Z.of_nat (confirmadas + presentes)
         = ev_capacidade_maxima ev - ev_vagas_disponiveis ev
  | (total, None, None, None) =>
      total = 0%nat /\ ev_vagas_disponiveis ev = ev_capacidade_maxima ev
  | _ => False
  end.
Proof.
  intros Halc Hin.
  pose proof (cs_contagem db (alcancavel_consistente db Halc) ev Hin) as Hcont.
  unfold confirmed_count in Hcont. rewrite ativas_das_linhas in Hcont.
  unfold estatisticas_inscricoes.
  assert (Hco : forall i, In i (filter (fun i => in_evento_id i =? ev_id ev) (inscricoes db)) ->
                          registro_coerente i).
  { intros i Hi. apply filter_In in Hi as [Hi _]. now apply (registros_coerentes db). }
  destruct (contagem_por_status _ Hco) as [Htotal Hativas].
  destruct (filter (fun i => in_evento_id i =? ev_id ev) (inscricoes db)) as [|i linhas].
  - cbn in *. lia.
  - unfold soma_casos. rewrite Hativas in Hcont. split; [cbn; lia|].
    split; [exact Htotal | lia].
Qed.

End Report.

Section Generator.

Lemma alfabeto_codigo_nth (k : nat) :
  (k < 36)%nat ->
  caractere_de_codigo (nth k alfabeto_codigo Ascii.zero) = true
  /\ Ascii.nat_of_ascii (nth k alfabeto_codigo Ascii.zero)
     = (if (k <? 26)%nat then 65 + k else 22 + k)%nat.
Proof.
  intros Hk. do 36 (destruct k as [|k]; [split; reflexivity|]). lia.
Qed.

Lemma length_string_of_list_ascii (l : list Ascii.ascii) :
  String.length (string_of_list_ascii l) = length l.
Proof. induction l as [|a l IH]; cbn; [reflexivity | now rewrite IH]. Qed.

(** X15: every code [gerar_codigo_confirmacao] produces has ten
    characters, each an uppercase letter or a digit. *)
Theorem gerar_codigo_confirmacao_bem_formado (sorteio : list nat) :
  sorteio_valido sorteio ->
  codigo_gerado (gerar_codigo_confirmacao sorteio) = true
  /\ String.length (gerar_codigo_confirmacao sorteio) = 10%nat.
Proof.
  intros [Hlen Hks]. unfold codigo_gerado, gerar_codigo_confirmacao.
  rewrite length_string_of_list_ascii, list_ascii_of_string_of_list_ascii, length_map, Hlen.
  split; [|reflexivity]. cbn [Nat.eqb andb]. apply forallb_forall.
  intros a (k & <- & Hk)%in_map_iff. apply alfabeto_codigo_nth.
  rewrite Forall_forall in Hks. now apply Hks.
Qed.

(** X16: two draws give the same code only if they are the same draw:
    codes collide exactly as often as draws repeat. *)
Theorem gerar_codigo_confirmacao_injetiva (s1 s2 : list nat) :
  sorteio_valido s1 ->
  sorteio_valido s2 ->
  gerar_codigo_confirmacao s1 = gerar_codigo_confirmacao s2 ->
  s1 = s2.
Proof.
  intros [_ H1] [_ H2] Heq. unfold gerar_codigo_confirmacao in Heq.
  apply (f_equal list_ascii_of_string) in Heq.
  rewrite !list_ascii_of_string_of_list_ascii in Heq.
  revert s2 H2 Heq. induction H1 as [|k s1 Hk _ IH]; intros s2 H2 Heq.
  - destruct s2; [reflexivity | discriminate].
  - destruct H2 as [|k' s2 Hk' H2]; [discriminate|].
    cbn [map] in Heq. injection Heq as Hc Hr. f_equal; [|now apply IH].
    assert (Hn : Ascii.nat_of_ascii (nth k alfabeto_codigo Ascii.zero)
                 = Ascii.nat_of_ascii (nth k' alfabeto_codigo Ascii.zero))
      by (f_equal; exact Hc).
    rewrite (proj2 (alfabeto_codigo_nth k Hk)), (proj2 (alfabeto_codigo_nth k' Hk')) in Hn.
    destruct (Nat.ltb_spec k 26), (Nat.ltb_spec k' 26); lia.
Qed.

End Generator.

(** ** Users *)

Section Users.

Variable sha256_hexdigest : string -> string.

Lemma mesmo_cpf_cnpj_false (cpf_cnpj : option string) (us : list usuario) :
  existsb (mesmo_cpf_cnpj cpf_cnpj) us = false <->
  forall c, cpf_cnpj = Some c -> ~ In c (documentos us).
Proof.
  induction us as [|u us IH]; cbn [existsb documentos flat_map].
  - split; [intros _ c _ [] | reflexivity].
  - fold (documentos us). rewrite orb_false_iff, IH. unfold mesmo_cpf_cnpj at 1.
    destruct cpf_cnpj as [c|], (us_cpf_cnpj u) as [c'|]; cbn [app].
    + rewrite String.eqb_neq. split.
      * intros [Hne H] c0 [= <-] [Hc|Hc]; [congruence | now apply (H c)].
      * intros H. split.
        -- intros ->. apply (H c eq_refl). now left.
        -- intros c0 [= <-] Hc. apply (H c eq_refl). now right.
    + split; [intros [_ H]; exact H | intros H; split; [reflexivity | exact H]].
    + split; [intros _ c0 [=] | intros _; split; [reflexivity | intros c0 [=]]].
    + split; [intros _ c0 [=] | intros _; split; [reflexivity | intros c0 [=]]].
Qed.

Lemma inserir_usuario_Some (us novos : list usuario) (nome email hash : string)
    (tel cpf : option string) (tipo agora : string) (id : Z) :
  inserir_usuario us nome email hash tel cpf tipo agora = Some (novos, id) <->
  tipo_usuario_valido tipo = true
  /\ ~ In email (map us_email us)
  /\ (forall c, cpf = Some c -> ~ In c (documentos us))
  /\ id = proximo_id (map us_id us)
  /\ novos = us ++ [mk_usuario id nome email hash tel cpf tipo agora].
Proof.
  unfold inserir_usuario.
  rewrite <- mesmo_cpf_cnpj_false.
  rewrite <- (existsb_false_In (mesmo_email email) us_email email us)
    by (intros u; apply String.eqb_eq).
  destruct (tipo_usuario_valido tipo); cbn [negb orb]; [|split; [discriminate | easy]].
  destruct (existsb (mesmo_email email) us); cbn [orb]; [split; [discriminate | easy]|].
  destruct (existsb (mesmo_cpf_cnpj cpf) us); [split; [discriminate | easy]|].
  split.
  - intros [= <- <-]. easy.
  - intros (_ & _ & _ & -> & ->). reflexivity.
Qed.

Lemma documentos_snoc (us : list usuario) (u : usuario) :
  documentos (us ++ [u]) =
  documentos us ++ match us_cpf_cnpj u with Some c => [c] | None => [] end.
Proof. unfold documentos. rewrite flat_map_app. cbn. now rewrite app_nil_r. Qed.

(** X17: [cadastrar_usuario] succeeds exactly when the type is one of
    participante, organizador, patrocinador, the e-mail is not on file
    and the cpf_cnpj, if one is given, is not on file either; any number
    of users may leave cpf_cnpj empty.  On success one row is appended
    under a fresh id, holding the digest of the password; on failure
    nothing changes.  Events, enrollments and ratings are never touched. *)
Theorem cadastrar_usuario_resultado (s : sistema) (agora nome email senha : string)
    (tel cpf : option string) (tipo : string) :
  ((exists id, retorno_sistema
                 (cadastrar_usuario sha256_hexdigest s agora nome email senha tel cpf tipo)
               = Some id)
   <-> tipo_usuario_valido tipo = true
       /\ ~ In email (map us_email (usuarios s))
       /\ (forall c, cpf = Some c -> ~ In c (documentos (usuarios s))))
  /\ (retorno_sistema (cadastrar_usuario sha256_hexdigest s agora nome email senha tel cpf tipo)
      = None ->
      sistema_final (cadastrar_usuario sha256_hexdigest s agora nome email senha tel cpf tipo)
      = s)
  /\ (forall id,
        retorno_sistema (cadastrar_usuario sha256_hexdigest s agora nome email senha tel cpf tipo)
        = Some id ->
        ~ In id (map us_id (usuarios s))
        /\ usuarios (sistema_final
             (cadastrar_usuario sha256_hexdigest s agora nome email senha tel cpf tipo))
           = usuarios s
             ++ [mk_usuario id nome email (sha256_hexdigest senha) tel cpf tipo agora])
  /\ nucleo (sistema_final
       (cadastrar_usuario sha256_hexdigest s agora nome email senha tel cpf tipo))
     = nucleo s
  /\ avaliacoes (sistema_final
       (cadastrar_usuario sha256_hexdigest s agora nome email senha tel cpf tipo))
     = avaliacoes s.
Proof.
  unfold cadastrar_usuario.
  destruct (inserir_usuario (usuarios s) nome email (sha256_hexdigest senha) tel cpf tipo agora)
    as [[novos id]|] eqn:Hins;
    cbn [retorno_sistema sistema_final usuarios nucleo avaliacoes].
  - apply inserir_usuario_Some in Hins as (Htipo & Hemail & Hcpf & -> & ->).
    split; [split; [easy | intros _; eexists; reflexivity]|].
    split; [discriminate|]. split; [|easy].
    intros id' [= <-]. split; [apply proximo_id_novo | reflexivity].
  - split; [|split; [reflexivity | split; [discriminate | easy]]].
    split; [intros [id [=]]|]. intros (Htipo & Hemail & Hcpf). exfalso.
    assert (Hok : inserir_usuario (usuarios s) nome email (sha256_hexdigest senha)
                                  tel cpf tipo agora
                  = Some (usuarios s
                            ++ [mk_usuario (proximo_id (map us_id (usuarios s))) nome email
                                           (sha256_hexdigest senha) tel cpf tipo agora],
                          proximo_id (map us_id (usuarios s))))
      by now apply inserir_usuario_Some.
    congruence.
Qed.

Lemma alcancavel_sistema_ind (P : sistema -> Prop) :
  P sistema_vazio ->
  (forall s o, alcancavel_sistema sha256_hexdigest s -> P s ->
               P (executar_sistema sha256_hexdigest s o)) ->
  forall s, alcancavel_sistema sha256_hexdigest s -> P s.
Proof.
  intros H0 Hstep s [ops ->]. induction ops as [|o ops IH] using rev_ind; [exact H0|].
  unfold executar_todas_sistema. rewrite fold_left_app. cbn [fold_left].
  apply Hstep; [now exists ops | exact IH].
Qed.

Lemma usuarios_executar_sistema (s : sistema) (o : operacao_sistema) :
  usuarios (executar_sistema sha256_hexdigest s o) = usuarios s
  \/ exists u,
       usuarios (executar_sistema sha256_hexdigest s o) = usuarios s ++ [u]
       /\ tipo_usuario_valido (us_tipo_usuario u) = true
       /\ ~ In (us_email u) (map us_email (usuarios s))
       /\ (forall c, us_cpf_cnpj u = Some c -> ~ In c (documentos (usuarios s))).
Proof.
  destruct o as [o|agora nome email senha tel cpf tipo|agora p e nota com];
    cbn [executar_sistema usuarios].
  - now left.
  - unfold cadastrar_usuario.
    destruct (inserir_usuario _ nome email _ tel cpf tipo agora) as [[novos id]|] eqn:Hins;
      cbn [sistema_final usuarios]; [|now left].
    apply inserir_usuario_Some in Hins as (Htipo & Hemail & Hcpf & _ & ->).
    right. eexists. split; [reflexivity|]. easy.
  - left. unfold avaliar_evento.
    destruct (selecionar_presente _ p e) as [[|]|]; try reflexivity.
    now destruct (inserir_avaliacao _ p e nota com agora).
Qed.

Lemma usuarios_invariante (s : sistema) :
  alcancavel_sistema sha256_hexdigest s ->
  NoDup (map us_email (usuarios s))
  /\ NoDup (documentos (usuarios s))
  /\ Forall (fun u => tipo_usuario_valido (us_tipo_usuario u) = true) (usuarios s).
Proof.
  revert s. apply alcancavel_sistema_ind; [repeat split; constructor|].
  intros s o _ (Hemail & Hdoc & Htipo).
  destruct (usuarios_executar_sistema s o) as [->|(u & -> & Hu & Hne & Hnd)]; [easy|].
  split; [|split].
  - rewrite map_app. now apply NoDup_snoc.
  - rewrite documentos_snoc. destruct (us_cpf_cnpj u) as [c|].
    + apply NoDup_snoc; [exact Hdoc | now apply Hnd].
    + now rewrite app_nil_r.
  - apply Forall_app. split; [exact Htipo | now constructor].
Qed.

(** X18: in every reachable database no two users share an e-mail (an
    e-mail identifies its user), no two share a cpf_cnpj, and every
    user's type is one of the three the schema allows. *)
Theorem usuarios_alcancaveis (s : sistema) :
  alcancavel_sistema sha256_hexdigest s ->
  NoDup (map us_email (usuarios s))
  /\ (forall u1 u2, In u1 (usuarios s) -> In u2 (usuarios s) ->
                    us_email u1 = us_email u2 -> u1 = u2)
  /\ NoDup (documentos (usuarios s))
  /\ Forall (fun u => tipo_usuario_valido (us_tipo_usuario u) = true) (usuarios s).
Proof.
  intros Halc. destruct (usuarios_invariante s Halc) as (Hemail & Hdoc & Htipo).
  split; [exact Hemail|]. split; [|split; assumption].
  intros u1 u2 H1 H2 Heq. now apply (NoDup_map_inj_on us_email (usuarios s)).
Qed.

Lemma particao_por_tipo (us : list usuario) :
  Forall (fun u => tipo_usuario_valido (us_tipo_usuario u) = true) us ->
  (length (filter (fun u => String.eqb (us_tipo_usuario u) "participante") us)
   + length (filter (fun u => String.eqb (us_tipo_usuario u) "organizador") us)
   + length (filter (fun u => String.eqb (us_tipo_usuario u) "patrocinador") us)
   = length us)%nat.
Proof.
  induction 1 as [|u us Hu _ IH]; [reflexivity|]. cbn [filter].
  unfold tipo_usuario_valido in Hu.
  destruct (String.eqb_spec (us_tipo_usuario u) "participante") as [E1|E1],
           (String.eqb_spec (us_tipo_usuario u) "organizador") as [E2|E2],
           (String.eqb_spec (us_tipo_usuario u) "patrocinador") as [E3|E3];
    try discriminate Hu; try congruence; cbn [length]; lia.
Qed.

(** X19: [listar_usuarios] with no type, or with the empty string, returns
    every user; with a type it returns the users of that type, in table
    order.  In a reachable database the three listings by type together
    hold every user once, and a listing by any other type is empty. *)
Theorem listar_usuarios_por_tipo (s : sistema) :
  alcancavel_sistema sha256_hexdigest s ->
  listar_usuarios s None = usuarios s
  /\ listar_usuarios s (Some ""%string) = usuarios s
  /\ (length (listar_usuarios s (Some "participante"%string))
      + length (listar_usuarios s (Some "organizador"%string))
      + length (listar_usuarios s (Some "patrocinador"%string))
      = length (usuarios s))%nat
  /\ (forall t u, In u (listar_usuarios s (Some t)) -> t <> ""%string ->
                  In u (usuarios s) /\ us_tipo_usuario u = t)
  /\ (forall t, t <> ""%string -> tipo_usuario_valido t = false ->
                listar_usuarios s (Some t) = []).
Proof.
  intros Halc. destruct (usuarios_invariante s Halc) as (_ & _ & Htipo).
  split; [reflexivity|]. split; [reflexivity|].
  split; [apply (particao_por_tipo _ Htipo)|]. split.
  - intros t u Hin Ht. unfold listar_usuarios in Hin.
    destruct (String.eqb_spec t ""); [contradiction|].
    apply filter_In in Hin as [Hin Hu]. now apply String.eqb_eq in Hu.
  - intros t Ht Hinv. unfold listar_usuarios.
    destruct (String.eqb_spec t ""); [contradiction|].
    apply filter_nenhum. intros u Hu. apply not_true_false. intros Heq.
    apply String.eqb_eq in Heq. rewrite Forall_forall in Htipo.
    specialize (Htipo u Hu). congruence.
Qed.

End Users.

(** ** Ratings *)

Section Ratings.

Variable sha256_hexdigest : string -> string.

Lemma mesmo_par_avaliacao_true (p e : Z) (a : avaliacao) :
  mesmo_par_avaliacao p e a = true <-> par_avaliacao a = (p, e).
Proof.
  unfold mesmo_par_avaliacao, par_avaliacao. rewrite andb_true_iff, !Z.eqb_eq.
  split; [intros [-> ->]; reflexivity | intros [= -> ->]; easy].
Qed.

Lemma nota_valida_true (nota : Z) : nota_valida nota = true <-> 1 <= nota <= 5.
Proof. unfold nota_valida. rewrite andb_true_iff, !Z.leb_le. reflexivity. Qed.

Lemma inserir_avaliacao_Some (avs novas : list avaliacao) (p e nota : Z) (com agora : string) :
  inserir_avaliacao avs p e nota com agora = Some novas <->
  1 <= nota <= 5
  /\ ~ In (p, e) (map par_avaliacao avs)
  /\ novas = avs ++ [mk_avaliacao (proximo_id (map av_id avs)) p e nota com agora].
Proof.
  unfold inserir_avaliacao.
  rewrite <- nota_valida_true.
  rewrite <- (existsb_false_In (mesmo_par_avaliacao p e) par_avaliacao (p, e) avs)
    by apply mesmo_par_avaliacao_true.
  destruct (nota_valida nota); cbn [negb orb]; [|split; [discriminate | easy]].
  destruct (existsb (mesmo_par_avaliacao p e) avs); [split; [discriminate | easy]|].
  split; [intros [= <-]; easy | intros (_ & _ & ->); reflexivity].
Qed.

Lemma inserir_avaliacao_None (avs : list avaliacao) (p e nota : Z) (com agora : string) :
  inserir_avaliacao avs p e nota com agora = None <->
  ~ 1 <= nota <= 5 \/ In (p, e) (map par_avaliacao avs).
Proof.
  unfold inserir_avaliacao.
  destruct (nota_valida nota) eqn:Hn; cbn [negb orb].
  - apply nota_valida_true in Hn.
    destruct (existsb (mesmo_par_avaliacao p e) avs) eqn:Hex.
    + split; [intros _; right | reflexivity].
      apply existsb_exists in Hex as (a & Ha & Hpar). apply mesmo_par_avaliacao_true in Hpar.
      rewrite <- Hpar. now apply in_map.
    + rewrite (existsb_false_In _ par_avaliacao (p, e)) in Hex
        by apply mesmo_par_avaliacao_true.
      split; [discriminate | tauto].
  - split; [intros _; left | reflexivity].
    rewrite <- nota_valida_true. congruence.
Qed.

Lemma selecionar_presente_Some (ins : list inscricao) (p e : Z) (b : bool) :
  selecionar_presente ins p e = Some b ->
  exists i, In i ins /\ par_inscricao i = (p, e) /\ in_presente i = b.
Proof.
  unfold selecionar_presente.
  destruct (find (mesmo_par p e) ins) as [i|] eqn:Hf; [|discriminate].
  intros [= <-]. apply find_some in Hf as [Hin Hpar].
  exists i. split; [exact Hin|]. split; [now apply mesmo_par_true | reflexivity].
Qed.

Lemma find_mesmo_par_unico (ins : list inscricao) (i : inscricao) :
  NoDup (map par_inscricao ins) -> In i ins ->
  find (mesmo_par (in_participante_id i) (in_evento_id i)) ins = Some i.
Proof.
  intros Hnd Hin.
  destruct (find _ ins) as [j|] eqn:Hf.
  - apply find_some in Hf as [Hj Hpar]. apply mesmo_par_true in Hpar. f_equal.
    now apply (NoDup_map_inj_on par_inscricao ins).
  - exfalso. apply (find_none _ _ Hf) in Hin.
    assert (mesmo_par (in_participante_id i) (in_evento_id i) i = true)
      by now apply mesmo_par_true.
    congruence.
Qed.

(** X20: [avaliar_evento] records a rating exactly when the first
    enrollment row of the pair is marked present, the grade is between 1
    and 5 and the pair has not rated yet.  A grade out of range is turned
    away with the already-rated line.  When the call fails nothing
    changes; when it succeeds one rating is appended and nothing else
    changes. *)
Theorem avaliar_evento_resultado (s : sistema) (agora : string) (p e nota : Z) (com : string) :
  (retorno_sistema (avaliar_evento s agora p e nota com) = true
   <-> selecionar_presente (inscricoes (nucleo s)) p e = Some true
       /\ 1 <= nota <= 5
       /\ ~ In (p, e) (map par_avaliacao (avaliacoes s)))
  /\ (impresso_sistema (avaliar_evento s agora p e nota com) = MsgJaAvaliou
      <-> selecionar_presente (inscricoes (nucleo s)) p e = Some true
          /\ (~ 1 <= nota <= 5 \/ In (p, e) (map par_avaliacao (avaliacoes s))))
  /\ (retorno_sistema (avaliar_evento s agora p e nota com) = false ->
      sistema_final (avaliar_evento s agora p e nota com) = s)
  /\ (retorno_sistema (avaliar_evento s agora p e nota com) = true ->
      avaliacoes (sistema_final (avaliar_evento s agora p e nota com))
      = avaliacoes s
        ++ [mk_avaliacao (proximo_id (map av_id (avaliacoes s))) p e nota com agora])
  /\ nucleo (sistema_final (avaliar_evento s agora p e nota com)) = nucleo s
  /\ usuarios (sistema_final (avaliar_evento s agora p e nota com)) = usuarios s.
Proof.
  unfold avaliar_evento.
  destruct (selecionar_presente (inscricoes (nucleo s)) p e) as [[|]|];
    cbn [retorno_sistema impresso_sistema sistema_final];
    try (repeat split; try easy; intros (H & _); discriminate H).
  destruct (inserir_avaliacao (avaliacoes s) p e nota com agora) as [novas|] eqn:Hins;
    cbn [retorno_sistema impresso_sistema sistema_final avaliacoes nucleo usuarios].
  - apply inserir_avaliacao_Some in Hins as (Hn & Hp & ->).
    split; [easy|]. split; [|easy]. split; [discriminate|]. intros (_ & [H|H]); contradiction.
  - apply inserir_avaliacao_None in Hins.
    split; [|split; [|easy]].
    + split; [discriminate|]. intros (_ & Hn & Hp). tauto.
    + split; [intros _; split; [reflexivity | exact Hins] | reflexivity].
Qed.

Lemma avaliar_evento_sucesso (s : sistema) (agora : string) (p e nota : Z) (com : string) :
  selecionar_presente (inscricoes (nucleo s)) p e = Some true ->
  1 <= nota <= 5 ->
  ~ In (p, e) (map par_avaliacao (avaliacoes s)) ->
  avaliar_evento s agora p e nota com
  = mk_saida_sistema
      (mk_sistema (nucleo s) (usuarios s)
         (avaliacoes s
            ++ [mk_avaliacao (proximo_id (map av_id (avaliacoes s))) p e nota com agora]))
      true MsgAvaliacaoRegistrada.
Proof.
  intros Hsel Hn Hp. unfold avaliar_evento. rewrite Hsel.
  assert (Hok : inserir_avaliacao (avaliacoes s) p e nota com agora
                = Some (avaliacoes s
                     ++ [mk_avaliacao (proximo_id (map av_id (avaliacoes s))) p e nota com agora]))
    by now apply inserir_avaliacao_Some.
  now rewrite Hok.
Qed.

Lemma alcancavel_nucleo (s : sistema) :
  alcancavel_sistema sha256_hexdigest s -> alcancavel (nucleo s).
Proof.
  revert s. apply (alcancavel_sistema_ind sha256_hexdigest); [now exists []|].
  intros s o _ IH.
  destruct o as [o|agora nome email senha tel cpf tipo|agora p e nota com];
    cbn [executar_sistema nucleo].
  - now apply alcancavel_executar.
  - unfold cadastrar_usuario.
    now destruct (inserir_usuario _ nome email _ tel cpf tipo agora) as [[novos id]|].
  - unfold avaliar_evento. destruct (selecionar_presente _ p e) as [[|]|]; try exact IH.
    now destruct (inserir_avaliacao _ p e nota com agora).
Qed.

Lemma compareceu_executar (db : banco) (o : operacao) (p e : Z) :
  compareceu db p e -> compareceu (executar db o) p e.
Proof.
  intros (i & Hin & Hpar & Hs).
  destruct (inscricoes_executar db o) as (antigas & novas & Hpasso & Hev & _).
  destruct (Forall2_In_l _ _ _ i Hev Hin) as (i' & Hi' & Hii').
  exists i. rewrite Hpasso. split; [|easy]. apply in_or_app. left.
  destruct Hii' as (_ & _ & _ & _ & _ & [->|[[Hc _]|[Hc _]]]); [exact Hi' | congruence | congruence].
Qed.

Lemma avaliacoes_invariante (s : sistema) :
  alcancavel_sistema sha256_hexdigest s ->
  NoDup (map par_avaliacao (avaliacoes s))
  /\ forall a, In a (avaliacoes s) ->
               1 <= av_nota a <= 5
               /\ compareceu (nucleo s) (av_participante_id a) (av_evento_id a).
Proof.
  revert s. apply (alcancavel_sistema_ind sha256_hexdigest); [split; [constructor | intros a []]|].
  intros s o Halc [Hnd Havs].
  destruct o as [o|agora nome email senha tel cpf tipo|agora p e nota com];
    cbn [executar_sistema].
  - cbn [avaliacoes nucleo]. split; [exact Hnd|]. intros a Ha.
    destruct (Havs a Ha) as [Hn Hc]. split; [exact Hn | now apply compareceu_executar].
  - unfold cadastrar_usuario.
    now destruct (inserir_usuario _ nome email _ tel cpf tipo agora) as [[novos id]|].
  - unfold avaliar_evento.
    destruct (selecionar_presente _ p e) as [[|]|] eqn:Hsel; try easy.
    destruct (inserir_avaliacao _ p e nota com agora) as [novas|] eqn:Hins; [|easy].
    apply inserir_avaliacao_Some in Hins as (Hn & Hp & ->).
    cbn [sistema_final avaliacoes nucleo]. split.
    + rewrite map_app. now apply NoDup_snoc.
    + intros a [Ha|[<-|[]]]%in_app_or; [now apply Havs|].
      cbn [av_nota av_participante_id av_evento_id]. split; [exact Hn|].
      apply selecionar_presente_Some in Hsel as (i & Hin & Hpar & Hpres).
      exists i. split; [exact Hin|]. split; [exact Hpar|].
      destruct (registros_coerentes _ (alcancavel_nucleo s Halc) i Hin) as [Hflag _].
      rewrite Hpres in Hflag. symmetry in Hflag. now apply status_eqb_true in Hflag.
Qed.

(** X21: in every reachable database each (participant, event) pair has
    rated at most once, every grade is between 1 and 5, and every rating
    was given by somebody whose enrollment in that event is in state
    [presente]: nobody rates an event without having checked in. *)
Theorem avaliacoes_de_quem_compareceu (s : sistema) :
  alcancavel_sistema sha256_hexdigest s ->
  NoDup (map par_avaliacao (avaliacoes s))
  /\ Forall (fun a =>
       1 <= av_nota a <= 5
       /\ exists i, In i (inscricoes (nucleo s))
                    /\ in_participante_id i = av_participante_id a
                    /\ in_evento_id i = av_evento_id a
                    /\ in_status i = Presente
                    /\ in_presente i = true) (avaliacoes s).
Proof.
  intros Halc. destruct (avaliacoes_invariante s Halc) as [Hnd Havs].
  split; [exact Hnd|]. apply Forall_forall. intros a Ha.
  destruct (Havs a Ha) as [Hn (i & Hin & Hpar & Hs)]. split; [exact Hn|].
  exists i. injection Hpar as Hp He. repeat (split; [assumption|]).
  destruct (registros_coerentes _ (alcancavel_nucleo s Halc) i Hin) as [Hflag _].
  now rewrite Hflag, Hs.
Qed.

(** X22: somebody enrolled but not yet checked in cannot rate the event;
    right after their check-in a rating with a grade between 1 and 5 is
    accepted, and a second rating of the same event is turned away. *)
Theorem checkin_e_avaliar (s : sistema) (i : inscricao) (t t1 t2 : string)
    (nota nota' : Z) (com com' : string) :
  alcancavel_sistema sha256_hexdigest s ->
  In i (inscricoes (nucleo s)) ->
  in_status i = Confirmada ->
  1 <= nota <= 5 ->
  let p := in_participante_id i in
  let e := in_evento_id i in
  let s1 := executar_sistema sha256_hexdigest s
              (OpNucleo (OpCheckin (in_codigo_confirmacao i) t)) in
  let s2 := sistema_final (avaliar_evento s1 t1 p e nota com) in
  avaliar_evento s t1 p e nota com = mk_saida_sistema s false MsgPrecisaTerParticipado
  /\ retorno_sistema (avaliar_evento s1 t1 p e nota com) = true
  /\ avaliar_evento s2 t2 p e nota' com' = mk_saida_sistema s2 false MsgJaAvaliou.
Proof.
  intros Halc Hin Hs Hnota p e s1 s2.
  pose proof (alcancavel_nucleo s Halc) as Hnuc.
  pose proof (alcancavel_consistente _ Hnuc) as Hcs.
  destruct (registros_coerentes _ Hnuc i Hin) as [Hflag _].
  rewrite Hs in Hflag. cbn in Hflag.
  assert (Hfind : find (mesmo_par p e) (inscricoes (nucleo s)) = Some i)
    by (apply find_mesmo_par_unico; [apply (cs_pares _ Hcs) | exact Hin]).
  assert (Hlivre : ~ In (p, e) (map par_avaliacao (avaliacoes s))).
  { intros (a & Hpar & Ha)%in_map_iff.
    destruct (proj2 (avaliacoes_invariante s Halc) a Ha) as [_ (j & Hj & Hjpar & Hjs)].
    injection Hpar as Hp He. rewrite Hp, He in Hjpar.
    assert (j = i) as -> by (apply (NoDup_map_inj_on par_inscricao _ j i (cs_pares _ Hcs)); easy).
    congruence. }
  assert (Hsel1 : selecionar_presente (inscricoes (nucleo s1)) p e = Some true).
  { unfold s1. cbn [executar_sistema nucleo executar].
    assert (Halvo : alvo_checkin (in_codigo_confirmacao i) i = true)
      by now apply alvo_checkin_true.
    destruct (realizar_checkin_casos (nucleo s) (in_codigo_confirmacao i) t)
      as [[Hz _]|[_ ->]].
    { rewrite length_filter_zero in Hz. rewrite (Hz i Hin) in Halvo. discriminate. }
    cbn [banco_final inscricoes atualizar_presente fst]. unfold selecionar_presente.
    assert (Hmap : forall l,
      find (mesmo_par p e)
           (map (fun j => if alvo_checkin (in_codigo_confirmacao i) j
                          then marcar_presente t j else j) l)
      = option_map (fun j => if alvo_checkin (in_codigo_confirmacao i) j
                             then marcar_presente t j else j)
                   (find (mesmo_par p e) l)).
    { induction l as [|j l IH]; [reflexivity|]. cbn [map find].
      assert (Hpar : mesmo_par p e (if alvo_checkin (in_codigo_confirmacao i) j
                                    then marcar_presente t j else j) = mesmo_par p e j)
        by now destruct (alvo_checkin (in_codigo_confirmacao i) j).
      rewrite Hpar. now destruct (mesmo_par p e j). }
    rewrite Hmap, Hfind. cbn [option_map]. now rewrite Halvo. }
  assert (Havs1 : avaliacoes s1 = avaliacoes s) by reflexivity.
  split; [|split].
  - unfold avaliar_evento, selecionar_presente. rewrite Hfind. cbn [option_map].
    now rewrite Hflag.
  - now rewrite (avaliar_evento_sucesso s1 t1 p e nota com Hsel1 Hnota Hlivre).
  - subst s2. rewrite (avaliar_evento_sucesso s1 t1 p e nota com Hsel1 Hnota Hlivre).
    cbn [sistema_final]. unfold avaliar_evento. cbn [nucleo avaliacoes]. rewrite Hsel1.
    destruct (inserir_avaliacao _ p e nota' com' t2) as [novas|] eqn:Hins; [|reflexivity].
    apply inserir_avaliacao_Some in Hins as (_ & Hnot & _). exfalso. apply Hnot.
    rewrite map_app. apply in_or_app. right. now left.
Qed.

End Ratings.

(** ** The further properties on the scenarios *)

Section MoreScenarios.

(** The last slot is taken and given back. *)
Lemma inscrever_e_cancelar_witness :
  let db := cenario_ultima_vaga in
  let r := inscrever_participante db "A1B2C3D4E5" instante 1 1 in
  retorno r = RetId 1
  /\ selecionar_vagas (eventos (banco_final r)) 1 = Some 0
  /\ retorno (cancelar_inscricao (banco_final r) 1 1) = true
  /\ eventos (banco_final (cancelar_inscricao (banco_final r) 1 1)) = eventos db
  /\ inscricoes (banco_final (cancelar_inscricao (banco_final r) 1 1))
     = inscricoes db ++ [mk_inscricao 1 1 1 instante Cancelada "A1B2C3D4E5" false None]
  /\ lista_espera (banco_final (cancelar_inscricao (banco_final r) 1 1)) = lista_espera db.
Proof.
  intros db r. split; [reflexivity|]. split; [reflexivity|].
  exact (inscrever_e_cancelar db "A1B2C3D4E5" instante 1 1 1 eq_refl).
Defined.

(** The code just issued is used at the door. *)
Lemma inscrever_e_checkin_witness :
  let db := cenario_ultima_vaga in
  let r := inscrever_participante db "A1B2C3D4E5" instante 1 1 in
  retorno r = RetId 1
  /\ retorno (realizar_checkin (banco_final r) "A1B2C3D4E5" "2024-05-08 19:00:00") = true
  /\ inscricoes (banco_final (realizar_checkin (banco_final r) "A1B2C3D4E5" "2024-05-08 19:00:00"))
     = inscricoes db
       ++ [mk_inscricao 1 1 1 instante Presente "A1B2C3D4E5" true
                        (Some "2024-05-08 19:00:00"%string)]
  /\ eventos (banco_final (realizar_checkin (banco_final r) "A1B2C3D4E5" "2024-05-08 19:00:00"))
     = eventos (banco_final r)
  /\ lista_espera (banco_final (realizar_checkin (banco_final r) "A1B2C3D4E5" "2024-05-08 19:00:00"))
     = lista_espera db.
Proof.
  intros db r. split; [reflexivity|].
  exact (inscrever_e_checkin db "A1B2C3D4E5" instante "2024-05-08 19:00:00" 1 1 1 eq_refl).
Defined.

(** Participant 1 cancelled; the pair stays closed. *)
Lemma par_inscrito_nunca_mais_witness :
  In (1, 1) (map par_inscricao (inscricoes cenario_cancelado))
  /\ forall ops c t,
       (retorno (inscrever_participante (executar_todas cenario_cancelado ops) c t 1 1) = RetNone
        \/ retorno (inscrever_participante (executar_todas cenario_cancelado ops) c t 1 1)
           = RetListaEspera)
       /\ banco_final (inscrever_participante (executar_todas cenario_cancelado ops) c t 1 1)
          = executar_todas cenario_cancelado ops.
Proof.
  assert (Hin : In (1, 1) (map par_inscricao (inscricoes cenario_cancelado)))
    by (left; reflexivity).
  split; [exact Hin|]. exact (par_inscrito_nunca_mais cenario_cancelado 1 1 Hin).
Defined.

(** The enrollment that checked in can be neither cancelled nor checked in again. *)
Lemma inscricao_encerrada_witness :
  let i := mk_inscricao 1 1 1 instante Presente "A1B2C3D4E5" true (Some instante) in
  alcancavel cenario_checkin
  /\ In i (inscricoes cenario_checkin)
  /\ forall ops t,
       cancelar_inscricao (executar_todas cenario_checkin ops) 1 1
       = mk_saida (executar_todas cenario_checkin ops) false
                  MsgInscricaoNaoEncontradaOuJaCancelada
       /\ realizar_checkin (executar_todas cenario_checkin ops) "A1B2C3D4E5" t
          = mk_saida (executar_todas cenario_checkin ops) false
                     MsgCodigoInvalidoOuCheckinJaRealizado.
Proof.
  intros i.
  assert (Halc : alcancavel cenario_checkin) by (eexists; reflexivity).
  assert (Hin : In i (inscricoes cenario_checkin)) by (left; reflexivity).
  assert (Hs : in_status i <> Confirmada) by discriminate.
  split; [exact Halc|]. split; [exact Hin|].
  exact (inscricao_encerrada cenario_checkin i Halc Hin Hs).
Defined.

Lemma chaves_unicas_witness :
  alcancavel cenario_lotado
  /\ NoDup (map in_codigo_confirmacao (inscricoes cenario_lotado))
  /\ NoDup (map par_inscricao (inscricoes cenario_lotado))
  /\ NoDup (map ev_id (eventos cenario_lotado))
  /\ NoDup (map par_espera (lista_espera cenario_lotado)).
Proof.
  assert (Halc : alcancavel cenario_lotado) by (eexists; reflexivity).
  split; [exact Halc|]. exact (chaves_unicas cenario_lotado Halc).
Defined.

Lemma ids_em_sequencia_witness :
  alcancavel cenario_lotado
  /\ map ev_id (eventos cenario_lotado) = [1]
  /\ map in_id (inscricoes cenario_lotado) = [1; 2]
  /\ map le_id (lista_espera cenario_lotado) = [1].
Proof.
  assert (Halc : alcancavel cenario_lotado) by (eexists; reflexivity).
  split; [exact Halc|]. exact (ids_em_sequencia cenario_lotado Halc).
Defined.

Lemma presente_acompanha_status_witness :
  let i := mk_inscricao 1 1 1 instante Presente "A1B2C3D4E5" true (Some instante) in
  alcancavel cenario_checkin
  /\ In i (inscricoes cenario_checkin)
  /\ in_presente i = status_eqb (in_status i) Presente
  /\ in_status i = Presente.
Proof.
  intros i.
  assert (Halc : alcancavel cenario_checkin) by (eexists; reflexivity).
  assert (Hin : In i (inscricoes cenario_checkin)) by (left; reflexivity).
  split; [exact Halc|]. split; [exact Hin|].
  exact (presente_acompanha_status cenario_checkin i Halc Hin).
Defined.

Lemma posicoes_em_sequencia_witness :
  alcancavel cenario_lotado
  /\ map le_posicao (fila_do_evento (lista_espera cenario_lotado) 1) = [1]
  /\ proxima_posicao (lista_espera cenario_lotado) 1 = 2.
Proof.
  assert (Halc : alcancavel cenario_lotado) by (eexists; reflexivity).
  split; [exact Halc|]. exact (posicoes_em_sequencia cenario_lotado 1 Halc).
Defined.

(** One attended, one cancelled: two rows, two of three slots open. *)
Lemma estatisticas_inscricoes_coerentes_witness :
  let ev := mk_evento 1 3 2 in
  alcancavel cenario_checkin
  /\ In ev (eventos cenario_checkin)
  /\ estatisticas_inscricoes (inscricoes cenario_checkin) 1
     = (2%nat, Some 0%nat, Some 1%nat, Some 1%nat)
  /\ ((0 < 2)%nat /\ (0 + 1 + 1 = 2)%nat /\ Z.of_nat (0 + 1) = 3 - 2).
Proof.
  intros ev.
  assert (Halc : alcancavel cenario_checkin) by (eexists; reflexivity).
  assert (Hin : In ev (eventos cenario_checkin)) by (left; reflexivity).
  split; [exact Halc|]. split; [exact Hin|]. split; [reflexivity|].
  exact (estatisticas_inscricoes_coerentes cenario_checkin ev Halc Hin).
Defined.

Lemma sorteio_de_exemplo_valido : sorteio_valido sorteio_de_exemplo.
Proof.
  split; [reflexivity|]. unfold sorteio_de_exemplo.
  repeat (constructor; [lia|]). constructor.
Defined.

Lemma gerar_codigo_confirmacao_bem_formado_witness :
  sorteio_valido sorteio_de_exemplo
  /\ gerar_codigo_confirmacao sorteio_de_exemplo = "A1B2C3D4E5"%string
  /\ codigo_gerado (gerar_codigo_confirmacao sorteio_de_exemplo) = true
  /\ String.length (gerar_codigo_confirmacao sorteio_de_exemplo) = 10%nat.
Proof.
  split; [exact sorteio_de_exemplo_valido|]. split; [reflexivity|].
  exact (gerar_codigo_confirmacao_bem_formado sorteio_de_exemplo sorteio_de_exemplo_valido).
Defined.

Lemma gerar_codigo_confirmacao_injetiva_witness :
  sorteio_valido sorteio_de_exemplo
  /\ gerar_codigo_confirmacao sorteio_de_exemplo
     = gerar_codigo_confirmacao [0; 27; 1; 28; 2; 29; 3; 30; 4; 31]%nat
  /\ sorteio_de_exemplo = [0; 27; 1; 28; 2; 29; 3; 30; 4; 31]%nat.
Proof.
  split; [exact sorteio_de_exemplo_valido|]. split; [reflexivity|].
  exact (gerar_codigo_confirmacao_injetiva sorteio_de_exemplo
           [0; 27; 1; 28; 2; 29; 3; 30; 4; 31]%nat
           sorteio_de_exemplo_valido sorteio_de_exemplo_valido eq_refl).
Defined.

Lemma cenario_sistema_alcancavel : alcancavel_sistema resumo_de_exemplo cenario_sistema.
Proof. eexists. reflexivity. Defined.

Lemma usuarios_alcancaveis_witness :
  alcancavel_sistema resumo_de_exemplo cenario_sistema
  /\ map us_email (usuarios cenario_sistema)
     = ["maria@cultura.com"; "ana@email.com"; "pedro@email.com"; "contato@empresa.com"]%string
  /\ NoDup (map us_email (usuarios cenario_sistema))
  /\ (forall u1 u2, In u1 (usuarios cenario_sistema) -> In u2 (usuarios cenario_sistema) ->
                    us_email u1 = us_email u2 -> u1 = u2)
  /\ NoDup (documentos (usuarios cenario_sistema))
  /\ Forall (fun u => tipo_usuario_valido (us_tipo_usuario u) = true) (usuarios cenario_sistema).
Proof.
  split; [exact cenario_sistema_alcancavel|]. split; [reflexivity|].
  exact (usuarios_alcancaveis resumo_de_exemplo cenario_sistema cenario_sistema_alcancavel).
Defined.

Lemma listar_usuarios_por_tipo_witness :
  alcancavel_sistema resumo_de_exemplo cenario_sistema
  /\ map us_nome (listar_usuarios cenario_sistema (Some "participante"%string))
     = ["Ana Costa"; "Pedro Oliveira"]%string
  /\ (length (listar_usuarios cenario_sistema (Some "participante"%string))
      + length (listar_usuarios cenario_sistema (Some "organizador"%string))
      + length (listar_usuarios cenario_sistema (Some "patrocinador"%string))
      = length (usuarios cenario_sistema))%nat.
Proof.
  split; [exact cenario_sistema_alcancavel|]. split; [reflexivity|].
  exact (proj1 (proj2 (proj2
           (listar_usuarios_por_tipo resumo_de_exemplo cenario_sistema
              cenario_sistema_alcancavel)))).
Defined.

Lemma avaliacoes_de_quem_compareceu_witness :
  alcancavel_sistema resumo_de_exemplo cenario_sistema
  /\ map (fun a => (av_participante_id a, av_evento_id a, av_nota a)) (avaliacoes cenario_sistema)
     = [(2, 1, 5)]
  /\ NoDup (map par_avaliacao (avaliacoes cenario_sistema))
  /\ Forall (fun a =>
       1 <= av_nota a <= 5
       /\ exists i, In i (inscricoes (nucleo cenario_sistema))
                    /\ in_participante_id i = av_participante_id a
                    /\ in_evento_id i = av_evento_id a
                    /\ in_status i = Presente
                    /\ in_presente i = true) (avaliacoes cenario_sistema).
Proof.
  split; [exact cenario_sistema_alcancavel|]. split; [reflexivity|].
  exact (avaliacoes_de_quem_compareceu resumo_de_exemplo cenario_sistema
           cenario_sistema_alcancavel).
Defined.

(** Pedro, enrolled under code F6G7H8I9J0, before and after his check-in. *)
Lemma checkin_e_avaliar_witness :
  let i := mk_inscricao 2 3 1 instante Confirmada "F6G7H8I9J0" false None in
  let s1 := executar_sistema resumo_de_exemplo cenario_sistema
              (OpNucleo (OpCheckin "F6G7H8I9J0" instante)) in
  let s2 := sistema_final (avaliar_evento s1 instante 3 1 4 "Bom") in
  alcancavel_sistema resumo_de_exemplo cenario_sistema
  /\ In i (inscricoes (nucleo cenario_sistema))
  /\ avaliar_evento cenario_sistema instante 3 1 4 "Bom"
     = mk_saida_sistema cenario_sistema false MsgPrecisaTerParticipado
  /\ retorno_sistema (avaliar_evento s1 instante 3 1 4 "Bom") = true
  /\ avaliar_evento s2 instante 3 1 2 "De novo" = mk_saida_sistema s2 false MsgJaAvaliou.
Proof.
  intros i s1 s2.
  assert (Hin : In i (inscricoes (nucleo cenario_sistema))) by (right; left; reflexivity).
  assert (Hnota : 1 <= 4 <= 5) by lia.
  split; [exact cenario_sistema_alcancavel|]. split; [exact Hin|].
  exact (checkin_e_avaliar resumo_de_exemplo cenario_sistema i instante instante instante
           4 2 "Bom" "De novo" cenario_sistema_alcancavel Hin eq_refl Hnota).
Defined.

(** A capacity of 2^63 is refused and nothing is stored; a second event of
    capacity 50 gets id 2 and is found with 50 open slots. *)
Lemma criar_evento_consulta_witness :
  retorno (criar_evento banco_vazio (2 ^ 63)) = None
  /\ impresso (criar_evento banco_vazio (2 ^ 63)) = MsgErroAoCriarEvento
  /\ banco_final (criar_evento banco_vazio (2 ^ 63)) = banco_vazio
  /\ retorno (criar_evento cenario_lotado 50) = Some 2
  /\ ~ In 2 (map ev_id (eventos cenario_lotado))
  /\ buscar_evento (eventos (banco_final (criar_evento cenario_lotado 50))) 2
     = Some (mk_evento 2 50 50)
  /\ selecionar_vagas (eventos (banco_final (criar_evento cenario_lotado 50))) 2 = Some 50
  /\ (forall e', e' <> 2 ->
        buscar_evento (eventos (banco_final (criar_evento cenario_lotado 50))) e'
        = buscar_evento (eventos cenario_lotado) e')
  /\ inscricoes (banco_final (criar_evento cenario_lotado 50)) = inscricoes cenario_lotado
  /\ lista_espera (banco_final (criar_evento cenario_lotado 50)) = lista_espera cenario_lotado.
Proof.
  split; [reflexivity|]. split; [reflexivity|].
  split; [exact (proj1 (criar_evento_consulta banco_vazio (2 ^ 63)) eq_refl)|].
  split; [reflexivity|].
  exact (proj2 (criar_evento_consulta cenario_lotado 50) 2 eq_refl).
Defined.

End MoreScenarios.

(** ** Freed slots and fixed capacities *)

Section Slots.

(** X23: a slot freed by a cancellation goes to whoever asks next.  After
    a confirmed enrollment of an event with no negative slot count is
    cancelled, [inscrever_participante] accepts any participant without a
    row for that event, with any unused code, whether or not they or
    anybody else is on the waiting list, which stays as it was. *)
Theorem vaga_liberada_para_quem_pedir (db : banco) (i : inscricao) (v p' : Z) (c' t : string) :
  In i (inscricoes db) ->
  in_status i = Confirmada ->
  selecionar_vagas (eventos db) (in_evento_id i) = Some v ->
  0 <= v ->
  ~ In (p', in_evento_id i) (map par_inscricao (inscricoes db)) ->
  ~ In c' (map in_codigo_confirmacao (inscricoes db)) ->
  let db1 := banco_final (cancelar_inscricao db (in_participante_id i) (in_evento_id i)) in
  retorno (cancelar_inscricao db (in_participante_id i) (in_evento_id i)) = true
  /\ selecionar_vagas (eventos db1) (in_evento_id i) = Some (v + 1)
  /\ retorno (inscrever_participante db1 c' t p' (in_evento_id i))
     = RetId (proximo_id (map in_id (inscricoes db)))
  /\ selecionar_vagas
       (eventos (banco_final (inscrever_participante db1 c' t p' (in_evento_id i))))
       (in_evento_id i) = Some v
  /\ lista_espera (banco_final (inscrever_participante db1 c' t p' (in_evento_id i)))
     = lista_espera db.
Proof.
  intros Hin Hs Hsel Hv Hnp Hnc db1.
  set (p := in_participante_id i) in *. set (e := in_evento_id i) in *.
  assert (Hi : alvo_cancelamento p e i = true) by now apply alvo_cancelamento_true.
  subst db1. destruct (cancelar_inscricao_casos db p e) as [[Hz _]|[_ ->]].
  { rewrite length_filter_zero in Hz. rewrite (Hz i Hin) in Hi. discriminate. }
  cbn [retorno banco_final]. split; [reflexivity|].
  assert (Hsel1 : selecionar_vagas (atualizar_vagas (eventos db) e 1) e = Some (v + 1)).
  { rewrite selecionar_vagas_atualizar_vagas, Hsel. cbn [option_map]. now rewrite Z.eqb_refl. }
  cbn [eventos]. split; [exact Hsel1|].
  set (ins1 := fst (atualizar_cancelada (inscricoes db) p e)).
  assert (Hok : inserir_inscricao ins1 p' e c' t
                = Some (ins1 ++ [mk_inscricao (proximo_id (map in_id (inscricoes db)))
                                              p' e t Confirmada c' false None],
                        proximo_id (map in_id (inscricoes db)))).
  { unfold inserir_inscricao.
    assert (Hp : existsb (mesmo_par p' e) ins1 = false).
    { rewrite (existsb_false_In _ par_inscricao (p', e)) by apply mesmo_par_true.
      unfold ins1. now rewrite map_atualizar_cancelada. }
    assert (Hc : existsb (mesmo_codigo c') ins1 = false).
    { rewrite (existsb_false_In _ in_codigo_confirmacao c') by apply mesmo_codigo_true.
      unfold ins1. now rewrite map_atualizar_cancelada. }
    rewrite Hp, Hc. cbn [orb]. unfold ins1.
    now rewrite (map_atualizar_cancelada in_id) by reflexivity. }
  unfold inscrever_participante. cbn [eventos inscricoes lista_espera].
  rewrite Hsel1. destruct (Z.leb_spec (v + 1) 0); [lia|].
  fold ins1. rewrite Hok. cbn [retorno banco_final eventos lista_espera].
  split; [reflexivity|]. split; [|reflexivity].
  rewrite selecionar_vagas_atualizar_vagas, Hsel1. cbn [option_map].
  rewrite Z.eqb_refl. f_equal. lia.
Qed.

Lemma capacidades_executar (db : banco) (o : operacao) :
  exists novos,
    map (fun ev => (ev_id ev, ev_capacidade_maxima ev)) (eventos (executar db o))
    = map (fun ev => (ev_id ev, ev_capacidade_maxima ev)) (eventos db) ++ novos.
Proof.
  destruct o as [cap|c t p e|t p e|p e|c t]; cbn [executar].
  - destruct (criar_evento_casos db cap) as [[_ ->]|[_ ->]].
    + eexists. cbn [banco_final eventos]. rewrite map_app. reflexivity.
    + exists []. now rewrite app_nil_r.
  - exists []. rewrite app_nil_r.
    destruct (inscrever_participante_casos db c t p e)
      as [[_ ->]|[(v & _ & _ & ->)|[(v & _ & _ & _ & ->)|(v & novas & id & _ & _ & _ & ->)]]];
      try reflexivity.
    apply capacidades_atualizar_vagas.
  - exists []. rewrite app_nil_r. unfold adicionar_lista_espera.
    now destruct (inserir_espera _ p e _ t).
  - exists []. rewrite app_nil_r.
    destruct (cancelar_inscricao_casos db p e) as [[_ ->]|[_ ->]]; [reflexivity|].
    apply capacidades_atualizar_vagas.
  - exists []. rewrite app_nil_r.
    now destruct (realizar_checkin_casos db c t) as [[_ ->]|[_ ->]].
Qed.

(** X24: events are never deleted and their capacity never changes: after
    any calls the events that were there are still there, in place, with
    the id and [capacidade_maxima] they had, followed by the new ones. *)
Theorem capacidade_imutavel (db : banco) (ops : list operacao) :
  exists novos,
    map (fun ev => (ev_id ev, ev_capacidade_maxima ev)) (eventos (executar_todas db ops))
    = map (fun ev => (ev_id ev, ev_capacidade_maxima ev)) (eventos db) ++ novos.
Proof.
  revert db. induction ops as [|o ops IH]; intros db.
  - exists []. now rewrite app_nil_r.
  - cbn [executar_todas fold_left]. destruct (IH (executar db o)) as (novos1 & Hfinal).
    destruct (capacidades_executar db o) as (novos0 & Hpasso).
    exists (novos0 ++ novos1). unfold executar_todas in Hfinal.
    now rewrite Hfinal, Hpasso, app_assoc.
Qed.

(** Participant 7, who never joined the waiting list, takes the slot
    participant 1 gives up, ahead of participant 3 who is waiting. *)
Lemma vaga_liberada_para_quem_pedir_witness :
  let db := cenario_lotado in
  let i := mk_inscricao 1 1 1 instante Confirmada "A1B2C3D4E5" false None in
  let db1 := banco_final (cancelar_inscricao db 1 1) in
  In i (inscricoes db)
  /\ selecionar_vagas (eventos db) 1 = Some 0
  /\ map le_participante_id (lista_espera db) = [3]
  /\ retorno (cancelar_inscricao db 1 1) = true
  /\ selecionar_vagas (eventos db1) 1 = Some (0 + 1)
  /\ retorno (inscrever_participante db1 "P6Q7R8S9T0" instante 7 1) = RetId 3
  /\ selecionar_vagas
       (eventos (banco_final (inscrever_participante db1 "P6Q7R8S9T0" instante 7 1))) 1
     = Some 0
  /\ lista_espera (banco_final (inscrever_participante db1 "P6Q7R8S9T0" instante 7 1))
     = lista_espera db.
Proof.
  intros db i db1.
  assert (Hin : In i (inscricoes db)) by (left; reflexivity).
  assert (Hv : 0 <= 0) by lia.
  assert (Hnp : ~ In (7, 1) (map par_inscricao (inscricoes db))).
  { intros [H|[H|[]]]; discriminate H. }
  assert (Hnc : ~ In "P6Q7R8S9T0"%string (map in_codigo_confirmacao (inscricoes db))).
  { intros [H|[H|[]]]; discriminate H. }
  split; [exact Hin|]. split; [reflexivity|]. split; [reflexivity|].
  exact (vaga_liberada_para_quem_pedir db i 0 7 "P6Q7R8S9T0" instante
           Hin eq_refl eq_refl Hv Hnp Hnc).
Defined.

End Slots.
